(** * Market-wide multi-strategy scanner: a model of [scan_market.py]

    The development embeds the scan orchestrator
    ([market_scan_all_strategies]) and the cross-strategy ranking aggregator
    ([compute_overall_ranking]) and proves the properties the design document
    states about them.

    Modelling conventions.
    - Python floats are exact rationals ([Q]); NaN and the infinities are not
      represented, except that the mean of an empty column (NaN in pandas) is
      [None].
    - Python [int] is [Z]; [len] results are [nat].
    - A Python [dict] is an insertion-ordered association list ([dict]).
    - A pandas [DataFrame] is the list of its rows.
    - An exception is the [Raise] outcome; [try: ... except: continue] is
      [try_except].
    - The collaborators that are not part of the file (pandas' reader and
      sort, the data loader, the backtest engine) are the fields of
      [Collaborators]. *)

From Stdlib Require Import List String Ascii Bool Arith ZArith QArith Lia.
From Stdlib Require Import Permutation Sorted.
Import ListNotations.

Set Implicit Arguments.

Local Open Scope string_scope.
Local Open Scope list_scope.

(** ** Outcomes of fallible calls *)

Inductive outcome (A : Type) : Type :=
| Ok (a : A)
| Raise.

Arguments Ok {A} a.
Arguments Raise {A}.

Definition obind {A B} (o : outcome A) (k : A -> outcome B) : outcome B :=
  match o with
  | Ok a => k a
  | Raise => Raise
  end.

(** ** Insertion-ordered dictionaries with string keys *)

Module Dict.

Definition dict (V : Type) := list (string * V).

Fixpoint get {V} (d : dict V) (k : string) : option V :=
  match d with
  | [] => None
  | (k', v) :: d' => if String.eqb k k' then Some v else get d' k
  end.

Definition mem {V} (d : dict V) (k : string) : bool :=
  match get d k with Some _ => true | None => false end.

(** [d[k] = v]: an existing key keeps its position, a new key goes last. *)
Fixpoint set {V} (d : dict V) (k : string) (v : V) : dict V :=
  match d with
  | [] => [(k, v)]
  | (k', v') :: d' =>
      if String.eqb k k' then (k', v) :: d' else (k', v') :: set d' k v
  end.

Definition keys {V} (d : dict V) : list string := map fst d.

(** [d[k]], which raises [KeyError] on a missing key. *)
Definition item {V} (d : dict V) (k : string) : outcome V :=
  match get d k with Some v => Ok v | None => Raise end.

End Dict.

Import Dict.

(** ** Numbers *)

Local Open Scope Q_scope.

(** Strict comparison of two floats, [x < y]. *)
Definition Qlt_bool (x y : Q) : bool := negb (Qle_bool y x).

(** Python's [sum]: a left fold starting from [0]. *)
Definition py_sum (xs : list Q) : Q := fold_left Qplus xs 0.

(** [x / n] for a float [x] and an [int] count [n]; dividing by zero raises
    [ZeroDivisionError]. *)
Definition py_div (x : Q) (n : nat) : outcome Q :=
  match n with
  | O => Raise
  | S _ => Ok (x / inject_Z (Z.of_nat n))
  end.

(** [Series.mean()]: [None] stands for the NaN of an empty column. *)
Definition series_mean (xs : list Q) : option Q :=
  match xs with
  | [] => None
  | _ :: _ => Some (py_sum xs / inject_Z (Z.of_nat (List.length xs)))
  end.

(** [mean < bound]; every comparison with NaN is [False]. *)
Definition mean_lt (m : option Q) (bound : Q) : bool :=
  match m with
  | Some x => Qlt_bool x bound
  | None => false
  end.

(** ** Strings and paths *)

(** Python's [pat in s]. *)
Fixpoint contains (pat s : string) : bool :=
  if String.prefix pat s then true
  else match s with
       | EmptyString => false
       | String _ s' => contains pat s'
       end.

Fixpoint basename_from (acc s : string) : string :=
  match s with
  | EmptyString => acc
  | String c s' =>
      if Ascii.eqb c "/"%char then basename_from EmptyString s'
      else basename_from (String.append acc (String c EmptyString)) s'
  end.

(** [os.path.basename]. *)
Definition basename (path : string) : string := basename_from EmptyString path.

(** [s.split(sep)[0]]. *)
Fixpoint before_first (sep : ascii) (s : string) : string :=
  match s with
  | EmptyString => EmptyString
  | String c s' =>
      if Ascii.eqb c sep then EmptyString else String c (before_first sep s')
  end.

Fixpoint after_first (sep : ascii) (s : string) : option string :=
  match s with
  | EmptyString => None
  | String c s' => if Ascii.eqb c sep then Some s' else after_first sep s'
  end.

(** [s.split(sep, 1)[-1]]. *)
Definition split1_last (sep : ascii) (s : string) : string :=
  match after_first sep s with
  | Some t => t
  | None => s
  end.

Fixpoint remove_all_from (pat : string) (skip : nat) (s : string) : string :=
  match s with
  | EmptyString => EmptyString
  | String c s' =>
      match skip with
      | S k => remove_all_from pat k s'
      | O =>
          if String.prefix pat s
          then remove_all_from pat (String.length pat - 1) s'
          else String c (remove_all_from pat 0 s')
      end
  end.

(** [s.replace(pat, '')] for a non-empty [pat]. *)
Definition remove_all (pat s : string) : string := remove_all_from pat 0 s.

(** [os.path.basename(csv_path).split('_')[0]] *)
Definition ticker_of (csv_path : string) : string :=
  before_first "_"%char (basename csv_path).

(** [os.path.basename(csv_path).replace('.csv', '').split('_', 1)[-1]] *)
Definition name_of (csv_path : string) : string :=
  split1_last "_"%char (remove_all ".csv" (basename csv_path)).

(** ** Data model *)

(** One row of a price file, possibly merged with the institutional flows. *)
Record Bar := mkBar {
  bar_date : string;
  bar_open : Q;
  bar_high : Q;
  bar_low : Q;
  bar_close : Q;
  bar_volume : Q;
  bar_institutional : option (Q * Q)
}.

Definition DataFrame := list Bar.

(** [df.empty] *)
Definition empty {A} (df : list A) : bool :=
  match df with [] => true | _ :: _ => false end.

(** [df['volume']] *)
Definition volume (df : DataFrame) : list Q := map bar_volume df.

(** [DataFrame.head(n)]: the first [n] rows, and for a negative [n] all rows
    but the last [-n]. *)
Definition head {A} (n : Z) (df : list A) : list A :=
  if (0 <=? n)%Z then firstn (Z.to_nat n) df
  else firstn (List.length df - Z.to_nat (- n)) df.

(** The strategy objects of the battery. *)
Inductive Strategy : Type :=
| MACrossStrategy (short long : Z)
| RSIStrategy (oversold overbought : Z)
| MACDStrategy
| BollingerStrategy
| MomentumBreakoutStrategy (lookback : Z)
| VolumeBreakoutStrategy (multiplier : Q)
| TurtleStrategy (entry exit : Z)
| InstitutionalFollowStrategy (investor : string) (days : Z) (threshold : Z).

(** [result['metrics']] of a backtest run. *)
Record Metrics := mkMetrics {
  m_total_return : Q;
  m_sharpe_ratio : Q;
  m_max_drawdown : Q;
  m_win_rate : Q;
  m_trade_count : Z
}.

(** A row accumulated for one (instrument, strategy) pair. *)
Record StrategyResult := mkResult {
  ticker : string;
  name : string;
  total_return : Q;
  sharpe_ratio : Q;
  max_drawdown : Q;
  win_rate : Q;
  trade_count : Z
}.

(** The per-ticker accumulator of [compute_overall_ranking]. *)
Record StockStats := mkStats {
  st_name : string;
  st_strategies : list string;
  st_sharpe_list : list Q;
  st_return_list : list Q;
  st_best_sharpe : Q;
  st_best_strategy : string
}.

(** A row of the composite ranking. *)
Record CompositeRankingEntry := mkEntry {
  e_ticker : string;
  e_name : string;
  e_score : Q;
  e_strategy_count : nat;
  e_avg_sharpe : Q;
  e_avg_return : Q;
  e_best_strategy : string;
  e_best_sharpe : Q;
  e_strategies : string
}.

(** ** Collaborators *)

(** A list is in descending order of [key]. *)
Definition descending {A} (key : A -> Q) (l : list A) : Prop :=
  Sorted (fun a b => key b <= key a) l.

(** [DataFrame.sort_values(column, ascending=False)] with pandas' default
    [kind]: the rows rearranged in descending order of the column.  The
    default kind is not a stable sort, so the order among equal keys is left
    open. *)
Record Sorter := mkSorter {
  sort_by : forall A : Type, (A -> Q) -> list A -> list A;
  sort_by_perm : forall (A : Type) (key : A -> Q) (l : list A),
      Permutation l (sort_by key l);
  sort_by_desc : forall (A : Type) (key : A -> Q) (l : list A),
      descending key (sort_by key l)
}.

Record Collaborators := mkCollaborators {
  (** the module-level [INSTITUTIONAL_DATA]; [None] when loading it raised *)
  INSTITUTIONAL_DATA : option DataFrame;
  (** [glob(os.path.join(STOCK_DIR, "*.csv"))] *)
  glob_csv : list string;
  (** [pd.read_csv(csv_path)] followed by the column access [df['volume']] *)
  read_csv : string -> outcome DataFrame;
  (** [load_stock_with_institutional(ticker)] *)
  load_stock_with_institutional : string -> outcome (option DataFrame);
  (** [engine.run(run_df, strategy, verbose=False)['metrics']] with its five
      keys read *)
  engine_run : DataFrame -> Strategy -> outcome Metrics;
  sort_values : Sorter
}.

(** ** The strategy battery *)

(** [get_all_strategies(include_institutional=True)] *)
Definition get_all_strategies (w : Collaborators) (include_institutional : bool)
  : list (string * Strategy) :=
  let strategies :=
    [ ("MA5x20", MACrossStrategy 5 20);
      ("MA5x60", MACrossStrategy 5 60);
      ("RSI", RSIStrategy 30 70);
      ("MACD", MACDStrategy);
      ("布林通道", BollingerStrategy);
      ("動量突破", MomentumBreakoutStrategy 20);
      ("量價突破", VolumeBreakoutStrategy 2);
      ("海龜策略", TurtleStrategy 20 10) ] in
  if include_institutional && (match INSTITUTIONAL_DATA w with Some _ => true | None => false end)
  then strategies ++
       [ ("外資連買", InstitutionalFollowStrategy "foreign" 3 100);
         ("投信連買", InstitutionalFollowStrategy "trust" 3 10) ]
  else strategies.

(** ['連買' in strategy_name or '連賣' in strategy_name] *)
Definition is_institutional (strategy_name : string) : bool :=
  contains "連買" strategy_name || contains "連賣" strategy_name.

(** ** The ranking aggregator *)

(** A fold whose step may raise; the first exception ends the loop. *)
Fixpoint ofold {A S : Type} (f : S -> A -> outcome S) (l : list A) (s : S)
  : outcome S :=
  match l with
  | [] => Ok s
  | x :: l' => obind (f s x) (ofold f l')
  end.

Fixpoint omap {A B : Type} (f : A -> outcome B) (l : list A) : outcome (list B) :=
  match l with
  | [] => Ok []
  | x :: l' =>
      obind (f x) (fun y => obind (omap f l') (fun ys => Ok (y :: ys)))
  end.

(** [d[k]] followed by an in-place change of the object found there. *)
Definition update_item {V} (d : dict V) (k : string) (f : V -> V)
  : outcome (dict V) :=
  obind (item d k) (fun v => Ok (set d k (f v))).

(** The body of the loop over the rows of one leaderboard. *)
Definition accumulate_row (strategy_name : string)
  (stock_stats : dict StockStats) (row : StrategyResult)
  : outcome (dict StockStats) :=
  let ticker := ticker row in
  let stock_stats :=
    if negb (mem stock_stats ticker)
    then set stock_stats ticker
           {| st_name := name row;
              st_strategies := [];
              st_sharpe_list := [];
              st_return_list := [];
              st_best_sharpe := 0;
              st_best_strategy := "" |}
    else stock_stats in
  obind (update_item stock_stats ticker (fun s =>
           mkStats (st_name s) (st_strategies s ++ [strategy_name])
             (st_sharpe_list s) (st_return_list s)
             (st_best_sharpe s) (st_best_strategy s))) (fun stock_stats =>
  obind (update_item stock_stats ticker (fun s =>
           mkStats (st_name s) (st_strategies s)
             (st_sharpe_list s ++ [sharpe_ratio row]) (st_return_list s)
             (st_best_sharpe s) (st_best_strategy s))) (fun stock_stats =>
  obind (update_item stock_stats ticker (fun s =>
           mkStats (st_name s) (st_strategies s)
             (st_sharpe_list s) (st_return_list s ++ [total_return row])
             (st_best_sharpe s) (st_best_strategy s))) (fun stock_stats =>
  obind (item stock_stats ticker) (fun s =>
  if Qlt_bool (st_best_sharpe s) (sharpe_ratio row)
  then
    obind (update_item stock_stats ticker (fun s =>
             mkStats (st_name s) (st_strategies s)
               (st_sharpe_list s) (st_return_list s)
               (sharpe_ratio row) (st_best_strategy s))) (fun stock_stats =>
    update_item stock_stats ticker (fun s =>
      mkStats (st_name s) (st_strategies s)
        (st_sharpe_list s) (st_return_list s)
        (st_best_sharpe s) strategy_name))
  else Ok stock_stats)))).

(** The body of the loop over [results.items()]. *)
Definition accumulate_leaderboard (stock_stats : dict StockStats)
  (entry : string * list StrategyResult) : outcome (dict StockStats) :=
  let '(strategy_name, df) := entry in
  if empty df then Ok stock_stats
  else ofold (accumulate_row strategy_name) df stock_stats.

(** [', '.join(names[:3]) + ('...' if strategy_count > 3 else '')] *)
Definition strategies_label (names : list string) : string :=
  String.append (String.concat ", " (firstn 3 names))
    (if (3 <? List.length names)%nat then "..." else "").

(** The body of the loop over [stock_stats.items()]. *)
Definition ranking_entry (kv : string * StockStats)
  : outcome CompositeRankingEntry :=
  let '(ticker, stats) := kv in
  let strategy_count := List.length (st_strategies stats) in
  obind (py_div (py_sum (st_sharpe_list stats)) strategy_count) (fun avg_sharpe =>
  obind (py_div (py_sum (st_return_list stats)) strategy_count) (fun avg_return =>
  let score := inject_Z (Z.of_nat strategy_count) * avg_sharpe in
  Ok {| e_ticker := ticker;
        e_name := st_name stats;
        e_score := score;
        e_strategy_count := strategy_count;
        e_avg_sharpe := avg_sharpe;
        e_avg_return := avg_return;
        e_best_strategy := st_best_strategy stats;
        e_best_sharpe := st_best_sharpe stats;
        e_strategies := strategies_label (st_strategies stats) |})).

(** The first loop of [compute_overall_ranking]. *)
Definition collect_stock_stats (results : dict (list StrategyResult))
  : outcome (dict StockStats) :=
  ofold accumulate_leaderboard results [].

(** The second loop of [compute_overall_ranking]. *)
Definition ranking_data (stock_stats : dict StockStats)
  : outcome (list CompositeRankingEntry) :=
  omap ranking_entry stock_stats.

(** [compute_overall_ranking(results, top_n)] *)
Definition compute_overall_ranking (pd : Sorter)
  (results : dict (list StrategyResult)) (top_n : Z)
  : outcome (list CompositeRankingEntry) :=
  obind (collect_stock_stats results) (fun stock_stats =>
  obind (ranking_data stock_stats) (fun ranking_df =>
  Ok (if negb (empty ranking_df)
      then head top_n (sort_by pd e_score ranking_df)
      else ranking_df))).

(** The default of the [top_n] parameter of [compute_overall_ranking]. *)
Definition default_top_n : Z := 30.

(** ** The scan orchestrator *)

(** A recorded call [engine.run(run_df, strategy)], with the file and the
    strategy name it was made for. *)
Record EngineCall := mkCall {
  call_path : string;
  call_strategy : string;
  call_df : DataFrame
}.

(** The mutable state of the scan: the [results] dictionary, and the calls
    made to the engine so far. *)
Record ScanState := mkState {
  results : dict (list StrategyResult);
  engine_calls : list EngineCall
}.

(** Statements of the scan: they change the state and may raise; a change
    made before an exception stays. *)
Definition M (A : Type) : Type := ScanState -> outcome A * ScanState.

Definition ret {A} (a : A) : M A := fun st => (Ok a, st).

Definition bind {A B} (c : M A) (k : A -> M B) : M B :=
  fun st =>
    match c st with
    | (Ok a, st') => k a st'
    | (Raise, st') => (Raise, st')
    end.

Notation "x <- c ;; k" := (bind c (fun x => k))
  (at level 61, c at next level, right associativity).

Definition lift {A} (o : outcome A) : M A := fun st => (o, st).

(** [try: body / except: continue] as the whole body of a loop. *)
Definition try_except (body : M unit) : M unit :=
  fun st => (Ok tt, snd (body st)).

Fixpoint for_each {A} (l : list A) (body : A -> M unit) : M unit :=
  match l with
  | [] => ret tt
  | x :: l' => _ <- body x ;; for_each l' body
  end.

(** [results[strategy_name].append(row)] *)
Definition append_result (strategy_name : string) (row : StrategyResult)
  : M unit :=
  fun st =>
    match update_item (results st) strategy_name (fun rows => rows ++ [row]) with
    | Ok d => (Ok tt, mkState d (engine_calls st))
    | Raise => (Raise, st)
    end.

(** [engine.run(run_df, strategy, verbose=False)] and [result['metrics']] *)
Definition call_engine (w : Collaborators) (csv_path strategy_name : string)
  (run_df : DataFrame) (strategy : Strategy) : M Metrics :=
  fun st =>
    (engine_run w run_df strategy,
     mkState (results st)
       (engine_calls st ++ [mkCall csv_path strategy_name run_df])).

(** The input selected for a strategy; [None] is the [continue] of an
    institutional strategy without a merged series. *)
Definition select_run_df (strategy_name : string) (df : DataFrame)
  (df_with_inst : option DataFrame) : option DataFrame :=
  if is_institutional strategy_name
  then match df_with_inst with
       | None => None
       | Some merged => if empty merged then None else Some merged
       end
  else Some df.

(** The minimum number of trades of an accepted result. *)
Definition min_trades : Z := 3.

(** The body of the loop over the strategies. *)
Definition evaluate_strategy (w : Collaborators)
  (csv_path ticker name : string) (df : DataFrame)
  (df_with_inst : option DataFrame) (s : string * Strategy) : M unit :=
  let '(strategy_name, strategy) := s in
  try_except
    match select_run_df strategy_name df df_with_inst with
    | None => ret tt
    | Some run_df =>
        m <- call_engine w csv_path strategy_name run_df strategy ;;
        if (min_trades <=? m_trade_count m)%Z
        then append_result strategy_name
               {| ticker := ticker;
                  name := name;
                  total_return := m_total_return m;
                  sharpe_ratio := m_sharpe_ratio m;
                  max_drawdown := m_max_drawdown m;
                  win_rate := m_win_rate m;
                  trade_count := m_trade_count m |}
        else ret tt
    end.

(** The merged series of an instrument: [None] unless the institutional data
    is loaded and the loader returns. *)
Definition merged_series (w : Collaborators) (ticker : string)
  : option DataFrame :=
  match INSTITUTIONAL_DATA w with
  | Some _ =>
      match load_stock_with_institutional w ticker with
      | Ok r => r
      | Raise => None
      end
  | None => None
  end.

(** The body of the loop over the files. *)
Definition scan_file (w : Collaborators) (min_volume : Q)
  (strategies : list (string * Strategy)) (csv_path : string) : M unit :=
  try_except
    (df <- lift (read_csv w csv_path) ;;
     if mean_lt (series_mean (volume df)) min_volume then ret tt
     else
       let ticker := ticker_of csv_path in
       let name := name_of csv_path in
       let df_with_inst := merged_series w ticker in
       for_each strategies
         (evaluate_strategy w csv_path ticker name df df_with_inst)).

(** [{name: [] for name, _ in strategies}] *)
Definition empty_results (strategies : list (string * Strategy))
  : dict (list StrategyResult) :=
  fold_left (fun d s => set d (fst s) []) strategies [].

(** The loop over the universe, from the initial state. *)
Definition scan_universe (w : Collaborators) (min_volume : Q)
  (strategies : list (string * Strategy)) (files : list string)
  : outcome unit * ScanState :=
  for_each files (scan_file w min_volume strategies)
    (mkState (empty_results strategies) []).

(** The conversion of one accumulated list into a leaderboard. *)
Definition leaderboard (pd : Sorter) (top_n : Z) (rows : list StrategyResult)
  : list StrategyResult :=
  if negb (empty rows)
  then head top_n (sort_by pd sharpe_ratio rows)
  else [].

Definition leaderboards (pd : Sorter) (top_n : Z)
  (accumulated : dict (list StrategyResult)) : dict (list StrategyResult) :=
  map (fun kv => (fst kv, leaderboard pd top_n (snd kv))) accumulated.

(** [market_scan_all_strategies(top_n, min_volume)] *)
Definition market_scan_all_strategies (w : Collaborators)
  (top_n : Z) (min_volume : Q)
  : outcome (dict (list StrategyResult) * list CompositeRankingEntry) :=
  let files := glob_csv w in
  let strategies := get_all_strategies w true in
  let '(raised, st) := scan_universe w min_volume strategies files in
  obind raised (fun _ =>
  let results := leaderboards (sort_values w) top_n (results st) in
  obind (compute_overall_ranking (sort_values w) results default_top_n)
    (fun overall_ranking => Ok (results, overall_ranking))).

(** * Derived notions

    The functions and predicates in which the properties are stated. *)

(** The accumulator a ticker starts with. *)
Definition initial_stats (row : StrategyResult) : StockStats :=
  mkStats (name row) [] [] [] 0 "".

(** What one leaderboard row does to the accumulator of its ticker. *)
Definition stats_step (strategy_name : string) (row : StrategyResult)
  (s : StockStats) : StockStats :=
  if Qlt_bool (st_best_sharpe s) (sharpe_ratio row)
  then mkStats (st_name s) (st_strategies s ++ [strategy_name])
         (st_sharpe_list s ++ [sharpe_ratio row])
         (st_return_list s ++ [total_return row])
         (sharpe_ratio row) strategy_name
  else mkStats (st_name s) (st_strategies s ++ [strategy_name])
         (st_sharpe_list s ++ [sharpe_ratio row])
         (st_return_list s ++ [total_return row])
         (st_best_sharpe s) (st_best_strategy s).

(** The rows of all leaderboards, each with the name of its strategy, in the
    order in which the aggregator visits them. *)
Definition flat_rows (results : dict (list StrategyResult))
  : list (string * StrategyResult) :=
  flat_map (fun kv => map (pair (fst kv)) (snd kv)) results.

Definition for_ticker (t : string) (p : string * StrategyResult) : bool :=
  String.eqb (ticker (snd p)) t.

(** The leaderboard appearances of ticker [t], in visiting order. *)
Definition contributions (t : string) (results : dict (list StrategyResult))
  : list (string * StrategyResult) :=
  filter (for_ticker t) (flat_rows results).

Definition contributing_sharpes (t : string)
  (results : dict (list StrategyResult)) : list Q :=
  map (fun p => sharpe_ratio (snd p)) (contributions t results).

Definition contributing_returns (t : string)
  (results : dict (list StrategyResult)) : list Q :=
  map (fun p => total_return (snd p)) (contributions t results).

(** Ticker [t] is a member of some leaderboard. *)
Definition in_some_leaderboard (t : string)
  (results : dict (list StrategyResult)) : Prop :=
  exists strategy_name df row,
    In (strategy_name, df) results /\ In row df /\ ticker row = t.

(** The accumulator built from the appearances [cs] of one ticker. *)
Definition stats_of (cs : list (string * StrategyResult)) : option StockStats :=
  match cs with
  | [] => None
  | p :: _ =>
      Some (fold_left (fun s q => stats_step (fst q) (snd q) s) cs
              (initial_stats (snd p)))
  end.

(** The dictionary [d] is what the first loop builds from the rows [xs]. *)
Definition represents (d : dict StockStats)
  (xs : list (string * StrategyResult)) : Prop :=
  NoDup (keys d) /\ forall t, get d t = stats_of (filter (for_ticker t) xs).

Definition best_step (b : Q * string) (p : string * StrategyResult)
  : Q * string :=
  if Qlt_bool (fst b) (sharpe_ratio (snd p))
  then (sharpe_ratio (snd p), fst p)
  else b.

(** The running best over the appearances [cs], started at [(0, '')]. *)
Definition running_best (cs : list (string * StrategyResult)) : Q * string :=
  fold_left best_step cs (0, "").

(** The entry computed from an accumulator with at least one appearance. *)
Definition entry_of (kv : string * StockStats) : CompositeRankingEntry :=
  let stats := snd kv in
  let strategy_count := List.length (st_strategies stats) in
  let avg_sharpe :=
    py_sum (st_sharpe_list stats) / inject_Z (Z.of_nat strategy_count) in
  let avg_return :=
    py_sum (st_return_list stats) / inject_Z (Z.of_nat strategy_count) in
  {| e_ticker := fst kv;
     e_name := st_name stats;
     e_score := inject_Z (Z.of_nat strategy_count) * avg_sharpe;
     e_strategy_count := strategy_count;
     e_avg_sharpe := avg_sharpe;
     e_avg_return := avg_return;
     e_best_strategy := st_best_strategy stats;
     e_best_sharpe := st_best_sharpe stats;
     e_strategies := strategies_label (st_strategies stats) |}.

(** The last step of the aggregator: sort by score and keep [top_n]. *)
Definition top_entries (pd : Sorter) (top_n : Z)
  (ranking_df : list CompositeRankingEntry) : list CompositeRankingEntry :=
  if negb (empty ranking_df)
  then head top_n (sort_by pd e_score ranking_df)
  else ranking_df.

(** The row appended for an accepted run. *)
Definition result_row (ticker name : string) (m : Metrics) : StrategyResult :=
  {| ticker := ticker;
     name := name;
     total_return := m_total_return m;
     sharpe_ratio := m_sharpe_ratio m;
     max_drawdown := m_max_drawdown m;
     win_rate := m_win_rate m;
     trade_count := m_trade_count m |}.

(** The rows that an engine outcome adds: one for a run with enough trades,
    none for fewer trades or for an exception. *)
Definition accepted (ticker name : string) (run : outcome Metrics)
  : list StrategyResult :=
  match run with
  | Ok m =>
      if (min_trades <=? m_trade_count m)%Z then [result_row ticker name m]
      else []
  | Raise => []
  end.

(** The rows that one pass of the strategy loop's body adds, and the engine
    calls it makes. *)
Definition strategy_rows (w : Collaborators) (ticker name : string)
  (df : DataFrame) (df_with_inst : option DataFrame) (s : string * Strategy)
  : list StrategyResult :=
  match select_run_df (fst s) df df_with_inst with
  | None => []
  | Some run_df => accepted ticker name (engine_run w run_df (snd s))
  end.

Definition strategy_calls (csv_path : string) (df : DataFrame)
  (df_with_inst : option DataFrame) (s : string * Strategy)
  : list EngineCall :=
  match select_run_df (fst s) df df_with_inst with
  | None => []
  | Some run_df => [mkCall csv_path (fst s) run_df]
  end.

(** The rows that one file adds under one strategy, and the engine calls
    made for that pair. *)
Definition file_rows (w : Collaborators) (min_volume : Q) (csv_path : string)
  (s : string * Strategy) : list StrategyResult :=
  match read_csv w csv_path with
  | Raise => []
  | Ok df =>
      if mean_lt (series_mean (volume df)) min_volume then []
      else strategy_rows w (ticker_of csv_path) (name_of csv_path) df
             (merged_series w (ticker_of csv_path)) s
  end.

Definition file_calls (w : Collaborators) (min_volume : Q) (csv_path : string)
  (s : string * Strategy) : list EngineCall :=
  match read_csv w csv_path with
  | Raise => []
  | Ok df =>
      if mean_lt (series_mean (volume df)) min_volume then []
      else strategy_calls csv_path df (merged_series w (ticker_of csv_path)) s
  end.

(** The rows of the strategies named [k], among [strategies]. *)
Definition rows_for {X : Type} (rows : string * Strategy -> list X)
  (strategies : list (string * Strategy)) (k : string) : list X :=
  flat_map (fun s => if String.eqb (fst s) k then rows s else []) strategies.

(** State [st'] is state [st] with [rows k] appended under each key [k] and
    [calls] appended to the engine calls. *)
Definition grown (st st' : ScanState)
  (rows : string -> list StrategyResult) (calls : list EngineCall) : Prop :=
  keys (results st') = keys (results st) /\
  (forall k l, get (results st) k = Some l ->
               get (results st') k = Some (l ++ rows k)) /\
  engine_calls st' = engine_calls st ++ calls.

(** The accumulated results and the engine calls at the end of the loop over
    the universe. *)
Definition accumulated (w : Collaborators) (min_volume : Q)
  : dict (list StrategyResult) :=
  results (snd (scan_universe w min_volume (get_all_strategies w true)
                  (glob_csv w))).

Definition calls_made (w : Collaborators) (min_volume : Q) : list EngineCall :=
  engine_calls (snd (scan_universe w min_volume (get_all_strategies w true)
                       (glob_csv w))).


(** The collaborators [w'] behave like [w] on the pair of a file and a
    strategy: the file reads alike, the merged series is the same if the
    strategy is institutional, and the engine gives the same outcome on the
    input selected for the pair. *)
Definition same_on_pair (w w' : Collaborators) (csv_path : string)
  (s : string * Strategy) : Prop :=
  read_csv w' csv_path = read_csv w csv_path /\
  (is_institutional (fst s) = true ->
   merged_series w' (ticker_of csv_path) = merged_series w (ticker_of csv_path)) /\
  (forall df run_df,
     read_csv w csv_path = Ok df ->
     select_run_df (fst s) df (merged_series w (ticker_of csv_path))
       = Some run_df ->
     engine_run w' run_df (snd s) = engine_run w run_df (snd s)).

(** The rows of the other instruments: those whose ticker is not [t0]. *)
Definition other_tickers (t0 : string) (rows : list StrategyResult)
  : list StrategyResult :=
  filter (fun row => negb (String.eqb (ticker row) t0)) rows.

(** * Properties *)

(** ** Dictionaries *)

Section DictFacts.

Variable V : Type.
Implicit Types (d : dict V) (k : string) (v : V).

Lemma get_set_same d k v : get (set d k v) k = Some v.
Proof.
  induction d as [|[k' v'] d IH]; simpl.
  - now rewrite String.eqb_refl.
  - destruct (String.eqb k k') eqn:E; simpl; rewrite E; auto.
Qed.

Lemma get_set_other d k k' v : k <> k' -> get (set d k v) k' = get d k'.
Proof.
  intros Hne. induction d as [|[k0 v0] d IH]; simpl.
  - destruct (String.eqb_spec k' k); congruence.
  - destruct (String.eqb_spec k k0) as [->|Hk]; simpl.
    + destruct (String.eqb_spec k' k0); congruence.
    + now rewrite IH.
Qed.

Lemma set_set d k v v' : set (set d k v) k v' = set d k v'.
Proof.
  induction d as [|[k0 v0] d IH]; simpl.
  - now rewrite String.eqb_refl.
  - destruct (String.eqb k k0) eqn:E; simpl; rewrite E; congruence.
Qed.

Lemma get_none_keys d k : get d k = None <-> ~ In k (keys d).
Proof.
  induction d as [|[k0 v0] d IH]; simpl.
  - tauto.
  - destruct (String.eqb_spec k k0) as [->|Hk].
    + split; [discriminate | intros H; exfalso; auto].
    + rewrite IH. split; intros H; [intros [?|?]; congruence | tauto].
Qed.

Lemma get_some_in d k v : get d k = Some v -> In (k, v) d.
Proof.
  induction d as [|[k0 v0] d IH]; simpl; [discriminate|].
  destruct (String.eqb_spec k k0) as [->|Hk].
  - intros [= ->]. now left.
  - auto.
Qed.

Lemma in_get_nodup d k v : NoDup (keys d) -> In (k, v) d -> get d k = Some v.
Proof.
  induction d as [|[k0 v0] d IH]; simpl; [tauto|].
  intros Hnd [[= -> ->]|Hin].
  - now rewrite String.eqb_refl.
  - inversion Hnd as [|? ? Hnotin Hnd']; subst.
    destruct (String.eqb_spec k k0) as [->|Hk]; auto.
    exfalso. apply Hnotin. change (In (fst (k0, v)) (map fst d)).
    now apply in_map.
Qed.

Lemma keys_set_present d k v : In k (keys d) -> keys (set d k v) = keys d.
Proof.
  induction d as [|[k0 v0] d IH]; simpl; [tauto|].
  destruct (String.eqb_spec k k0) as [->|Hk]; simpl; auto.
  intros [?|Hin]; [congruence|]. f_equal; auto.
Qed.

Lemma keys_set_absent d k v : ~ In k (keys d) -> keys (set d k v) = keys d ++ [k].
Proof.
  induction d as [|[k0 v0] d IH]; simpl; auto.
  destruct (String.eqb_spec k k0) as [->|Hk]; simpl.
  - intros H; exfalso; auto.
  - intros H. f_equal. apply IH. tauto.
Qed.

Lemma nodup_keys_set d k v : NoDup (keys d) -> NoDup (keys (set d k v)).
Proof.
  intros Hnd. destruct (in_dec string_dec k (keys d)) as [Hin|Hout].
  - now rewrite keys_set_present.
  - rewrite keys_set_absent by assumption.
    apply NoDup_app; auto.
    + repeat constructor. simpl. tauto.
    + intros x Hx [<-|[]]. auto.
Qed.

Lemma mem_true d k : mem d k = true <-> In k (keys d).
Proof.
  unfold mem. destruct (get d k) eqn:E.
  - split; auto. intros _.
    destruct (in_dec string_dec k (keys d)) as [?|Hout]; auto.
    apply get_none_keys in Hout. congruence.
  - split; [discriminate|]. intros Hin. apply get_none_keys in E. tauto.
Qed.

Lemma update_item_some d k (f : V -> V) v :
  get d k = Some v -> update_item d k f = Ok (set d k (f v)).
Proof. unfold update_item, item. now intros ->. Qed.

End DictFacts.

(** ** The first loop of the aggregator *)

Lemma accumulate_row_step strategy_name stock_stats row :
  accumulate_row strategy_name stock_stats row =
  Ok (set stock_stats (ticker row)
        (stats_step strategy_name row
           (match get stock_stats (ticker row) with
            | Some s => s
            | None => initial_stats row
            end))).
Proof.
  unfold accumulate_row, mem.
  set (t := ticker row).
  assert (Hgen : forall d s, get d t = Some s ->
    obind (update_item d t (fun s =>
             mkStats (st_name s) (st_strategies s ++ [strategy_name])
               (st_sharpe_list s) (st_return_list s)
               (st_best_sharpe s) (st_best_strategy s))) (fun stock_stats =>
    obind (update_item stock_stats t (fun s =>
             mkStats (st_name s) (st_strategies s)
               (st_sharpe_list s ++ [sharpe_ratio row]) (st_return_list s)
               (st_best_sharpe s) (st_best_strategy s))) (fun stock_stats =>
    obind (update_item stock_stats t (fun s =>
             mkStats (st_name s) (st_strategies s)
               (st_sharpe_list s) (st_return_list s ++ [total_return row])
               (st_best_sharpe s) (st_best_strategy s))) (fun stock_stats =>
    obind (item stock_stats t) (fun s =>
    if Qlt_bool (st_best_sharpe s) (sharpe_ratio row)
    then
      obind (update_item stock_stats t (fun s =>
               mkStats (st_name s) (st_strategies s)
                 (st_sharpe_list s) (st_return_list s)
                 (sharpe_ratio row) (st_best_strategy s))) (fun stock_stats =>
      update_item stock_stats t (fun s =>
        mkStats (st_name s) (st_strategies s)
          (st_sharpe_list s) (st_return_list s)
          (st_best_sharpe s) strategy_name))
    else Ok stock_stats)))) = Ok (set d t (stats_step strategy_name row s))).
  { intros d s Hs.
    rewrite (update_item_some _ _ _ Hs). cbn [obind].
    rewrite (update_item_some _ _ _ (get_set_same _ _ _)). cbn [obind].
    rewrite (update_item_some _ _ _ (get_set_same _ _ _)). cbn [obind].
    unfold item at 1. rewrite get_set_same. cbn [obind].
    unfold stats_step. cbn.
    destruct (Qlt_bool (st_best_sharpe s) (sharpe_ratio row)).
    - rewrite (update_item_some _ _ _ (get_set_same _ _ _)). cbn [obind].
      rewrite (update_item_some _ _ _ (get_set_same _ _ _)).
      now rewrite !set_set.
    - now rewrite !set_set. }
  destruct (get stock_stats t) as [s|] eqn:E; cbn [negb].
  - now apply Hgen.
  - rewrite (Hgen _ _ (get_set_same _ _ _)). now rewrite set_set.
Qed.

Lemma stats_of_snoc cs p :
  stats_of (cs ++ [p]) =
  Some (stats_step (fst p) (snd p)
          (match stats_of cs with
           | Some s => s
           | None => initial_stats (snd p)
           end)).
Proof.
  destruct cs as [|c cs]; [reflexivity|].
  cbn [stats_of app fold_left]. now rewrite fold_left_app.
Qed.

Lemma represents_nil : represents [] [].
Proof. split; [constructor | reflexivity]. Qed.

Lemma represents_step d xs strategy_name row :
  represents d xs ->
  represents
    (set d (ticker row)
       (stats_step strategy_name row
          (match get d (ticker row) with
           | Some s => s
           | None => initial_stats row
           end)))
    (xs ++ [(strategy_name, row)]).
Proof.
  intros [Hnd Hget]. split; [now apply nodup_keys_set|].
  intros t. rewrite filter_app. cbn [filter]. unfold for_ticker at 2. cbn [snd].
  destruct (String.eqb_spec (ticker row) t) as [<-|Hne].
  - rewrite get_set_same, stats_of_snoc, <- Hget. reflexivity.
  - rewrite get_set_other by assumption. now rewrite app_nil_r.
Qed.

Lemma ofold_accumulate_row strategy_name df : forall d xs,
  represents d xs ->
  exists d', ofold (accumulate_row strategy_name) df d = Ok d' /\
             represents d' (xs ++ map (pair strategy_name) df).
Proof.
  induction df as [|row df IH]; intros d xs Hrep; cbn [ofold map].
  - exists d. now rewrite app_nil_r.
  - rewrite accumulate_row_step. cbn [obind].
    destruct (IH _ _ (represents_step strategy_name row Hrep)) as (d' & Hd' & Hrep').
    exists d'. split; [assumption|].
    now rewrite <- app_assoc in Hrep'.
Qed.

Lemma ofold_accumulate_leaderboard results : forall d xs,
  represents d xs ->
  exists d', ofold accumulate_leaderboard results d = Ok d' /\
             represents d' (xs ++ flat_rows results).
Proof.
  induction results as [|[strategy_name df] results IH]; intros d xs Hrep;
    cbn [ofold flat_rows flat_map].
  - exists d. now rewrite app_nil_r.
  - unfold accumulate_leaderboard at 1. cbn [fst snd].
    destruct (ofold_accumulate_row strategy_name df Hrep) as (d1 & Hd1 & Hrep1).
    assert (Hstep : (if empty df then Ok d
                     else ofold (accumulate_row strategy_name) df d) = Ok d1).
    { destruct df; [|exact Hd1]. cbn in Hd1 |- *. exact Hd1. }
    rewrite Hstep. cbn [obind].
    destruct (IH _ _ Hrep1) as (d' & Hd' & Hrep').
    exists d'. split; [assumption|].
    now rewrite <- app_assoc in Hrep'.
Qed.

(** The first loop never raises, and builds what [represents] describes. *)
Lemma collect_stock_stats_represents results :
  exists d, collect_stock_stats results = Ok d /\
            represents d (flat_rows results).
Proof.
  destruct (ofold_accumulate_leaderboard results represents_nil) as (d & Hd & Hrep).
  exists d. split; assumption.
Qed.

(** The fields of a built accumulator. *)

Section StatsFold.

Let step := fun (s : StockStats) (q : string * StrategyResult) =>
              stats_step (fst q) (snd q) s.

Lemma fold_stats_fields cs : forall s0,
  let s := fold_left step cs s0 in
  st_name s = st_name s0 /\
  st_strategies s = st_strategies s0 ++ map fst cs /\
  st_sharpe_list s =
    st_sharpe_list s0 ++ map (fun p => sharpe_ratio (snd p)) cs /\
  st_return_list s =
    st_return_list s0 ++ map (fun p => total_return (snd p)) cs /\
  (st_best_sharpe s, st_best_strategy s) =
    fold_left best_step cs (st_best_sharpe s0, st_best_strategy s0).
Proof.
  induction cs as [|c cs IH]; intros s0; cbn [fold_left map].
  - now rewrite !app_nil_r.
  - destruct (IH (step s0 c)) as (Hn & Hs & Hsh & Hr & Hb).
    cbv zeta. rewrite Hn, Hs, Hsh, Hr, Hb. clear.
    unfold step, stats_step, best_step. cbn [fst snd].
    destruct (Qlt_bool (st_best_sharpe s0) (sharpe_ratio (snd c)));
      cbn; rewrite <- !app_assoc; auto.
Qed.

End StatsFold.

Lemma stats_of_fields cs s :
  stats_of cs = Some s ->
  cs <> [] /\
  st_name s = match cs with p :: _ => name (snd p) | [] => "" end /\
  st_strategies s = map fst cs /\
  st_sharpe_list s = map (fun p => sharpe_ratio (snd p)) cs /\
  st_return_list s = map (fun p => total_return (snd p)) cs /\
  (st_best_sharpe s, st_best_strategy s) = running_best cs.
Proof.
  destruct cs as [|p cs]; [discriminate|].
  unfold stats_of. intros [= <-].
  destruct (fold_stats_fields (p :: cs) (initial_stats (snd p)))
    as (Hn & Hs & Hsh & Hr & Hb).
  split; [discriminate|]. now repeat split.
Qed.

(** ** The second loop of the aggregator *)

Lemma ranking_entry_ok kv :
  st_strategies (snd kv) <> [] -> ranking_entry kv = Ok (entry_of kv).
Proof.
  destruct kv as [t stats]. unfold ranking_entry, entry_of. cbn [fst snd].
  destruct (st_strategies stats) as [|n ns] eqn:E; [congruence|].
  intros _. reflexivity.
Qed.

Lemma ranking_data_ok d :
  (forall kv, In kv d -> st_strategies (snd kv) <> []) ->
  ranking_data d = Ok (map entry_of d).
Proof.
  unfold ranking_data. induction d as [|kv d IH]; intros H; cbn [omap map].
  - reflexivity.
  - rewrite ranking_entry_ok by (apply H; now left). cbn [obind].
    rewrite IH by (intros; apply H; now right). reflexivity.
Qed.

Lemma represents_nonempty d xs kv :
  represents d xs -> In kv d -> st_strategies (snd kv) <> [].
Proof.
  intros [Hnd Hget] Hin. destruct kv as [t s].
  apply in_get_nodup in Hin; [|assumption].
  rewrite Hget in Hin. apply stats_of_fields in Hin.
  destruct Hin as (Hne & _ & Hs & _). cbn [snd]. rewrite Hs.
  destruct (filter (for_ticker t) xs); [congruence | discriminate].
Qed.

(** The aggregator in closed form. *)
Lemma compute_overall_ranking_closed pd results top_n :
  exists d,
    collect_stock_stats results = Ok d /\
    represents d (flat_rows results) /\
    ranking_data d = Ok (map entry_of d) /\
    compute_overall_ranking pd results top_n =
      Ok (top_entries pd top_n (map entry_of d)).
Proof.
  destruct (collect_stock_stats_represents results) as (d & Hd & Hrep).
  assert (Hrd : ranking_data d = Ok (map entry_of d)).
  { apply ranking_data_ok. intros kv. now apply represents_nonempty with (xs := flat_rows results). }
  exists d. repeat split; try assumption; try apply Hrep.
  unfold compute_overall_ranking. rewrite Hd. cbn [obind]. now rewrite Hrd.
Qed.

(** ** Truncation and order *)

Lemma Qlt_bool_true x y : Qlt_bool x y = true <-> x < y.
Proof.
  unfold Qlt_bool. rewrite negb_true_iff.
  destruct (Qle_bool y x) eqn:E.
  - apply Qle_bool_iff in E. split; [discriminate|].
    intros H. exfalso. exact (Qlt_not_le _ _ H E).
  - split; auto. intros _. apply Qnot_le_lt. intros H.
    apply Qle_bool_iff in H. congruence.
Qed.

Lemma Qlt_bool_false x y : Qlt_bool x y = false <-> y <= x.
Proof.
  unfold Qlt_bool. rewrite negb_false_iff. apply Qle_bool_iff.
Qed.

Section Head.

Variable A : Type.
Implicit Types (l : list A) (n : Z).

Lemma firstn_incl k l x : In x (firstn k l) -> In x l.
Proof.
  intros H. rewrite <- (firstn_skipn k l). apply in_or_app. now left.
Qed.

Lemma head_incl n l x : In x (head n l) -> In x l.
Proof. unfold head. destruct (0 <=? n)%Z; apply firstn_incl. Qed.

Lemma head_length n l : (0 <= n)%Z -> (Z.of_nat (List.length (head n l)) <= n)%Z.
Proof.
  intros Hn. unfold head.
  destruct (Z.leb_spec 0 n) as [_|H]; [|lia].
  pose proof (firstn_le_length (Z.to_nat n) l). lia.
Qed.

Lemma head_all n l : (Z.of_nat (List.length l) <= n)%Z -> head n l = l.
Proof.
  intros Hn. unfold head.
  destruct (Z.leb_spec 0 n) as [_|H]; [|lia].
  apply firstn_all2. lia.
Qed.

Lemma head_nil n : head n (@nil A) = [].
Proof. unfold head. destruct (0 <=? n)%Z; now rewrite firstn_nil. Qed.

Variable key : A -> Q.

Lemma descending_firstn k : forall l,
  descending key l -> descending key (firstn k l).
Proof.
  unfold descending.
  induction k as [|k IH]; intros l Hs; [constructor|].
  destruct l as [|a l]; [constructor|].
  inversion Hs as [|? ? Hs' Hhd]; subst. cbn [firstn].
  constructor; [now apply IH|].
  destruct k; [constructor|].
  destruct l as [|b l]; [constructor|].
  inversion Hhd; subst. now constructor.
Qed.

Lemma descending_head n l : descending key l -> descending key (head n l).
Proof. unfold head. destruct (0 <=? n)%Z; apply descending_firstn. Qed.

(** Adjacent members of a descending list. *)
Lemma descending_adjacent l : descending key l ->
  forall i a b, nth_error l i = Some a -> nth_error l (S i) = Some b ->
                key b <= key a.
Proof.
  unfold descending. induction l as [|x l IH]; intros Hs i a b Ha Hb.
  - destruct i; discriminate.
  - inversion Hs as [|? ? Hs' Hhd]; subst.
    destruct i as [|i].
    + cbn in Ha, Hb. injection Ha as <-.
      destruct l as [|y l]; [discriminate|]. cbn in Hb. injection Hb as <-.
      now inversion Hhd.
    + cbn in Ha. change (nth_error l (S i) = Some b) in Hb. eauto.
Qed.

End Head.

Lemma in_top_entries pd top_n l e : In e (top_entries pd top_n l) -> In e l.
Proof.
  unfold top_entries. destruct (negb (empty l)); [|auto].
  intros H. apply head_incl in H.
  eapply Permutation_in; [apply Permutation_sym, sort_by_perm | exact H].
Qed.

Lemma top_entries_all pd top_n l :
  (Z.of_nat (List.length l) <= top_n)%Z -> Permutation l (top_entries pd top_n l).
Proof.
  intros H. unfold top_entries. destruct (negb (empty l)); [|reflexivity].
  rewrite head_all.
  - apply sort_by_perm.
  - now rewrite <- (Permutation_length (sort_by_perm pd e_score l)).
Qed.

Lemma leaderboard_incl pd top_n rows r :
  In r (leaderboard pd top_n rows) -> In r rows.
Proof.
  unfold leaderboard. destruct (negb (empty rows)); [|intros []].
  intros H. apply head_incl in H.
  eapply Permutation_in; [apply Permutation_sym, sort_by_perm | exact H].
Qed.

Lemma leaderboard_descending pd top_n rows :
  descending sharpe_ratio (leaderboard pd top_n rows).
Proof.
  unfold leaderboard. destruct (negb (empty rows)); [|constructor].
  apply descending_head, sort_by_desc.
Qed.

Lemma leaderboard_length pd top_n rows :
  (0 <= top_n)%Z ->
  (Z.of_nat (List.length (leaderboard pd top_n rows)) <= top_n)%Z.
Proof.
  intros H. unfold leaderboard. destruct (negb (empty rows)).
  - now apply head_length.
  - exact H.
Qed.

(** ** Two sorts that meet the contract of [sort_values]

    Insertion sorts in descending order of the key.  With [strict] the
    inserted row stays in front of the rows of equal key (ties keep their
    original order); without it the row goes behind them (ties come out
    reversed). *)

Section InsertionSort.

Variable strict : bool.

Definition passes (kx ky : Q) : bool :=
  if strict then Qlt_bool kx ky else Qle_bool kx ky.

Lemma passes_true kx ky : passes kx ky = true -> kx <= ky.
Proof.
  unfold passes. destruct strict; intros H.
  - apply Qlt_le_weak. now apply Qlt_bool_true.
  - now apply Qle_bool_iff.
Qed.

Lemma passes_false kx ky : passes kx ky = false -> ky <= kx.
Proof.
  unfold passes. destruct strict; intros H.
  - now apply Qlt_bool_false.
  - apply Qlt_le_weak, Qnot_le_lt. intros Hle.
    apply Qle_bool_iff in Hle. congruence.
Qed.

Section Keyed.

Variable A : Type.
Variable key : A -> Q.

Fixpoint insert_desc (x : A) (l : list A) : list A :=
  match l with
  | [] => [x]
  | y :: l' =>
      if passes (key x) (key y) then y :: insert_desc x l' else x :: l
  end.

Definition insertion_sort (l : list A) : list A :=
  fold_right insert_desc [] l.

Lemma insert_desc_perm x l : Permutation (x :: l) (insert_desc x l).
Proof.
  induction l as [|y l IH]; cbn [insert_desc]; [reflexivity|].
  destruct (passes (key x) (key y)); [|reflexivity].
  rewrite perm_swap. now constructor.
Qed.

Lemma insertion_sort_perm l : Permutation l (insertion_sort l).
Proof.
  induction l as [|x l IH]; cbn [insertion_sort fold_right]; [constructor|].
  rewrite <- insert_desc_perm. now constructor.
Qed.

Lemma insert_desc_hd y x l :
  HdRel (fun a b => key b <= key a) y l -> key x <= key y ->
  HdRel (fun a b => key b <= key a) y (insert_desc x l).
Proof.
  intros Hhd Hxy. destruct l as [|z l]; cbn [insert_desc].
  - now constructor.
  - destruct (passes (key x) (key z)); constructor; auto.
    now inversion Hhd.
Qed.

Lemma insert_desc_sorted x l :
  descending key l -> descending key (insert_desc x l).
Proof.
  unfold descending. induction l as [|y l IH]; intros Hs; cbn [insert_desc].
  - repeat constructor.
  - inversion Hs as [|? ? Hs' Hhd]; subst.
    destruct (passes (key x) (key y)) eqn:E.
    + constructor; [auto|]. apply insert_desc_hd; auto.
      now apply passes_true.
    + constructor; [assumption|]. constructor. now apply passes_false.
Qed.

Lemma insertion_sort_sorted l : descending key (insertion_sort l).
Proof.
  induction l as [|x l IH]; cbn [insertion_sort fold_right].
  - constructor.
  - now apply insert_desc_sorted.
Qed.

End Keyed.

Definition insertion_sorter : Sorter :=
  mkSorter insertion_sort insertion_sort_perm insertion_sort_sorted.

End InsertionSort.

(** A sort that keeps ties in their original order. *)
Definition stable_sorter : Sorter := insertion_sorter true.

(** A sort that reverses ties. *)
Definition tie_reversing_sorter : Sorter := insertion_sorter false.

(** ** Leaderboard membership and accumulators *)

Lemma in_flat_rows results strategy_name row :
  In (strategy_name, row) (flat_rows results) <->
  exists df, In (strategy_name, df) results /\ In row df.
Proof.
  unfold flat_rows. rewrite in_flat_map. split.
  - intros ([n df] & Hin & Hrow). cbn [fst snd] in Hrow.
    apply in_map_iff in Hrow. destruct Hrow as (r & [= <- <-] & Hr).
    now exists df.
  - intros (df & Hin & Hrow). exists (strategy_name, df). split; [assumption|].
    cbn [fst snd]. now apply in_map.
Qed.

Lemma contributions_in t results strategy_name row :
  In (strategy_name, row) (contributions t results) <->
  ticker row = t /\ exists df, In (strategy_name, df) results /\ In row df.
Proof.
  unfold contributions. rewrite filter_In, in_flat_rows.
  unfold for_ticker. cbn [snd]. rewrite String.eqb_eq. tauto.
Qed.

Lemma contributions_nonempty t results :
  contributions t results <> [] <-> in_some_leaderboard t results.
Proof.
  unfold in_some_leaderboard. split.
  - destruct (contributions t results) as [|[n row] cs] eqn:E; [congruence|].
    intros _. assert (Hin : In (n, row) (contributions t results))
      by (rewrite E; now left).
    apply contributions_in in Hin. destruct Hin as (Ht & df & Hdf & Hrow).
    now exists n, df, row.
  - intros (n & df & row & Hdf & Hrow & Ht) E.
    assert (Hin : In (n, row) (contributions t results))
      by (apply contributions_in; eauto).
    now rewrite E in Hin.
Qed.

Lemma stats_of_some cs : cs <> [] -> exists s, stats_of cs = Some s.
Proof. destruct cs; [congruence|]. intros _. eexists. reflexivity. Qed.

(** Every entry of the untruncated ranking data comes from the accumulator
    of its ticker, which is built from that ticker's appearances. *)
Lemma ranking_data_member results d e :
  represents d (flat_rows results) ->
  In e (map entry_of d) ->
  exists t s, stats_of (contributions t results) = Some s /\
              e = entry_of (t, s).
Proof.
  intros [Hnd Hget] Hin. apply in_map_iff in Hin.
  destruct Hin as ([t s] & <- & Hin).
  exists t, s. split; [|reflexivity].
  unfold contributions. rewrite <- Hget. now apply in_get_nodup.
Qed.

Lemma ranking_data_tickers results d t :
  represents d (flat_rows results) ->
  In t (map e_ticker (map entry_of d)) <-> in_some_leaderboard t results.
Proof.
  intros Hrep. rewrite <- contributions_nonempty. split.
  - intros Hin. apply in_map_iff in Hin. destruct Hin as (e & <- & He).
    destruct (@ranking_data_member results d e Hrep He) as (t & s & Hs & ->).
    cbn [entry_of e_ticker fst].
    destruct (contributions t results); [discriminate | congruence].
  - intros Hne. destruct (stats_of_some Hne) as (s & Hs).
    destruct Hrep as [Hnd Hget]. unfold contributions in Hs.
    rewrite <- Hget in Hs. apply get_some_in in Hs.
    apply in_map_iff. exists (entry_of (t, s)). split; [reflexivity|].
    now apply in_map.
Qed.

(** ** The running best *)

Lemma fold_best_step cs : forall b0 n0,
  let b := fst (fold_left best_step cs (b0, n0)) in
  let n := snd (fold_left best_step cs (b0, n0)) in
  b0 <= b /\
  (forall p, In p cs -> sharpe_ratio (snd p) <= b) /\
  ((b, n) = (b0, n0) \/
   (b0 < b /\ exists p, In p cs /\ b = sharpe_ratio (snd p) /\ n = fst p)).
Proof.
  induction cs as [|c cs IH]; intros b0 n0; cbn [fold_left].
  - cbn. split; [apply Qle_refl|]. split; [intros ? []|]. now left.
  - change (best_step (b0, n0) c)
      with (if Qlt_bool b0 (sharpe_ratio (snd c))
            then (sharpe_ratio (snd c), fst c) else (b0, n0)).
    destruct (Qlt_bool b0 (sharpe_ratio (snd c))) eqn:E.
    + apply Qlt_bool_true in E.
      destruct (IH (sharpe_ratio (snd c)) (fst c)) as (Hle & Hall & Hcase).
      cbv zeta in *. split; [|split].
      * apply Qlt_le_weak. eapply Qlt_le_trans; eassumption.
      * intros p [<-|Hp]; auto.
      * right. split; [eapply Qlt_le_trans; eassumption|].
        destruct Hcase as [Heq|(Hlt & p & Hp & Hb & Hn)].
        -- exists c. split; [now left|]. injection Heq as Hb Hn. auto.
        -- exists p. split; [now right|]. auto.
    + apply Qlt_bool_false in E.
      destruct (IH b0 n0) as (Hle & Hall & Hcase).
      cbv zeta in *. split; [assumption|]. split.
      * intros p [<-|Hp]; auto. eapply Qle_trans; eassumption.
      * destruct Hcase as [Heq|(Hlt & p & Hp & Hb & Hn)]; [now left|].
        right. split; [assumption|]. exists p. split; [now right|]. auto.
Qed.

(** The running best over the appearances of a ticker: an upper bound of
    their Sharpe ratios that is never below zero; it stays at [(0, '')]
    unless some ratio is strictly positive, and is then the largest ratio,
    paired with the name of a strategy that attains it. *)
Lemma running_best_spec cs :
  let b := fst (running_best cs) in
  let n := snd (running_best cs) in
  (forall p, In p cs -> sharpe_ratio (snd p) <= b) /\
  ((exists p, In p cs /\ 0 < sharpe_ratio (snd p)) ->
   exists p, In p cs /\ b = sharpe_ratio (snd p) /\ n = fst p) /\
  ((forall p, In p cs -> sharpe_ratio (snd p) <= 0) ->
   running_best cs = (0, "")).
Proof.
  unfold running_best.
  destruct (fold_best_step cs 0 "") as (Hle & Hall & Hcase). cbv zeta in *.
  split; [assumption|]. split.
  - intros (p & Hp & Hpos).
    destruct Hcase as [Heq|(Hlt & q & Hq & Hb & Hn)]; [|eauto].
    exfalso. specialize (Hall p Hp). injection Heq as Hb Hn.
    rewrite Hb in Hall. exact (Qlt_not_le _ _ Hpos Hall).
  - intros Hneg.
    destruct Hcase as [Heq|(Hlt & q & Hq & Hb & Hn)].
    + etransitivity; [apply surjective_pairing | exact Heq].
    + exfalso. specialize (Hneg q Hq). rewrite <- Hb in Hneg.
      exact (Qlt_not_le _ _ Hlt Hneg).
Qed.

(** ** The composite ranking *)

(** The aggregator returns, and each entry it returns is computed from the
    accumulator of the entry's ticker. *)
Lemma ranking_member pd results top_n :
  exists ranking,
    compute_overall_ranking pd results top_n = Ok ranking /\
    forall e, In e ranking ->
      exists t s, stats_of (contributions t results) = Some s /\
                  e = entry_of (t, s).
Proof.
  destruct (compute_overall_ranking_closed pd results top_n)
    as (d & _ & Hrep & _ & Hc).
  eexists. split; [exact Hc|]. intros e He.
  apply in_top_entries in He. now apply ranking_data_member with (d := d).
Qed.

(** C1, as amended.  A composite entry exists for a ticker only if the ticker
    is a member of some leaderboard.  Before the final truncation the second
    loop holds one entry for each ticker that is a member of some leaderboard
    and for no other; the ranking returned keeps the first [top_n] of them
    by score, so it holds every such ticker whenever there are at most
    [top_n] of them. *)
Theorem composite_scope_up_to_truncation pd results top_n :
  exists stock_stats all ranking,
    collect_stock_stats results = Ok stock_stats /\
    ranking_data stock_stats = Ok all /\
    compute_overall_ranking pd results top_n = Ok ranking /\
    NoDup (map e_ticker all) /\
    (forall t, In t (map e_ticker all) <-> in_some_leaderboard t results) /\
    (forall t, In t (map e_ticker ranking) -> in_some_leaderboard t results) /\
    ((Z.of_nat (List.length all) <= top_n)%Z ->
     forall t, in_some_leaderboard t results -> In t (map e_ticker ranking)).
Proof.
  destruct (compute_overall_ranking_closed pd results top_n)
    as (d & Hd & Hrep & Hall & Hc).
  exists d, (map entry_of d), (top_entries pd top_n (map entry_of d)).
  split; [assumption|]. split; [assumption|]. split; [assumption|].
  split; [|split; [|split]].
  - rewrite map_map. cbn [entry_of e_ticker]. apply Hrep.
  - intros t. now apply ranking_data_tickers.
  - intros t Hin. apply (@ranking_data_tickers results d t Hrep).
    apply in_map_iff in Hin. destruct Hin as (e & <- & He).
    apply in_map. now apply in_top_entries in He.
  - intros Hlen t Hin. apply (@ranking_data_tickers results d t Hrep) in Hin.
    eapply Permutation_in; [|exact Hin].
    apply Permutation_map. now apply top_entries_all.
Qed.

(** C8.  Every entry of the composite ranking has
    [score = strategy_count * avg_sharpe], where [strategy_count] is the
    number of leaderboard appearances of the entry's ticker (at least one)
    and [avg_sharpe] is the sum of the Sharpe ratios of these appearances
    divided by their number. *)
Theorem score_formula pd results top_n :
  exists ranking,
    compute_overall_ranking pd results top_n = Ok ranking /\
    forall e, In e ranking ->
      let sharpes := contributing_sharpes (e_ticker e) results in
      e_strategy_count e = List.length (contributions (e_ticker e) results) /\
      (1 <= e_strategy_count e)%nat /\
      e_avg_sharpe e =
        py_sum sharpes / inject_Z (Z.of_nat (List.length sharpes)) /\
      e_score e = inject_Z (Z.of_nat (e_strategy_count e)) * e_avg_sharpe e.
Proof.
  destruct (ranking_member pd results top_n) as (ranking & Hc & Hmem).
  exists ranking. split; [assumption|]. intros e He.
  destruct (Hmem e He) as (t & s & Hs & ->).
  apply stats_of_fields in Hs.
  destruct Hs as (Hne & _ & Hstr & Hsh & _).
  cbn [entry_of e_ticker e_strategy_count e_avg_sharpe e_score fst snd].
  unfold contributing_sharpes. rewrite Hstr, Hsh, !length_map.
  repeat split.
  destruct (contributions t results); [congruence | cbn; lia].
Qed.

(** C10.  [compute_overall_ranking] returns on every leaderboard mapping:
    every accumulator built by the first loop has at least one strategy name
    and as many Sharpe ratios and returns as names, so neither mean divides
    by zero. *)
Theorem compute_overall_ranking_total pd results top_n :
  (exists ranking, compute_overall_ranking pd results top_n = Ok ranking) /\
  exists stock_stats,
    collect_stock_stats results = Ok stock_stats /\
    forall t stats, In (t, stats) stock_stats ->
      let strategy_count := List.length (st_strategies stats) in
      (1 <= strategy_count)%nat /\
      List.length (st_sharpe_list stats) = strategy_count /\
      List.length (st_return_list stats) = strategy_count /\
      (exists avg_sharpe,
          py_div (py_sum (st_sharpe_list stats)) strategy_count = Ok avg_sharpe) /\
      (exists avg_return,
          py_div (py_sum (st_return_list stats)) strategy_count = Ok avg_return).
Proof.
  destruct (compute_overall_ranking_closed pd results top_n)
    as (d & Hd & Hrep & _ & Hc).
  split; [eauto|]. exists d. split; [assumption|].
  intros t stats Hin. cbv zeta.
  destruct Hrep as [Hnd Hget].
  apply in_get_nodup in Hin; [|assumption].
  rewrite Hget in Hin. apply stats_of_fields in Hin.
  destruct Hin as (Hne & _ & Hstr & Hsh & Hret & _).
  rewrite Hstr, Hsh, Hret, !length_map.
  destruct (filter (for_ticker t) (flat_rows results)) as [|c cs];
    [congruence|].
  cbn [List.length py_div]. repeat split; eauto. lia.
Qed.

(** What [best_sharpe] and [best_strategy] hold for the entries of the
    ranking: [best_sharpe] bounds the ticker's contributing Sharpe ratios;
    when one of them is strictly positive, [best_sharpe] is one of them and
    [best_strategy] is the strategy it comes from; when none is, the pair
    stays at its initial value [(0, '')]. *)
Lemma best_tracking pd results top_n :
  exists ranking,
    compute_overall_ranking pd results top_n = Ok ranking /\
    forall e, In e ranking ->
      let cs := contributions (e_ticker e) results in
      (forall p, In p cs -> sharpe_ratio (snd p) <= e_best_sharpe e) /\
      ((exists p, In p cs /\ 0 < sharpe_ratio (snd p)) ->
       exists p, In p cs /\ e_best_sharpe e = sharpe_ratio (snd p) /\
                 e_best_strategy e = fst p) /\
      ((forall p, In p cs -> sharpe_ratio (snd p) <= 0) ->
       e_best_sharpe e = 0 /\ e_best_strategy e = "").
Proof.
  destruct (ranking_member pd results top_n) as (ranking & Hc & Hmem).
  exists ranking. split; [assumption|]. intros e He.
  destruct (Hmem e He) as (t & s & Hs & ->).
  apply stats_of_fields in Hs.
  destruct Hs as (_ & _ & _ & _ & _ & Hbest).
  cbn [entry_of e_ticker e_best_sharpe e_best_strategy fst snd].
  destruct (running_best_spec (contributions t results)) as (Hub & Hpos & Hneg).
  rewrite <- Hbest in Hub, Hpos, Hneg. cbn [fst snd] in Hub, Hpos, Hneg.
  split; [exact Hub|]. split; [exact Hpos|].
  intros Hall. specialize (Hneg Hall). injection Hneg as -> ->. now split.
Qed.

(** ** The scan, pair by pair *)

Lemma set_same V (d : dict V) k v : get d k = Some v -> set d k v = d.
Proof.
  induction d as [|[k0 v0] d IH]; cbn; [discriminate|].
  destruct (String.eqb k k0); [now intros [= ->] | intros H; f_equal; auto].
Qed.

Lemma grown_refl st : grown st st (fun _ => []) [].
Proof.
  repeat split; [|now rewrite app_nil_r].
  intros k l H. now rewrite app_nil_r.
Qed.

Lemma grown_trans st st1 st2 r1 c1 r2 c2 :
  grown st st1 r1 c1 -> grown st1 st2 r2 c2 ->
  grown st st2 (fun k => r1 k ++ r2 k) (c1 ++ c2).
Proof.
  intros (Hk1 & Hg1 & Hc1) (Hk2 & Hg2 & Hc2). repeat split.
  - congruence.
  - intros k l H. rewrite app_assoc. auto.
  - rewrite Hc2, Hc1. now rewrite app_assoc.
Qed.

Lemma for_each_cons A (x : A) l body st :
  for_each (x :: l) body st =
  match body x st with
  | (Ok _, st') => for_each l body st'
  | (Raise, st') => (Raise, st')
  end.
Proof. reflexivity. Qed.

Lemma evaluate_strategy_grown w csv_path t nm df dfi s st :
  In (fst s) (keys (results st)) ->
  exists st',
    evaluate_strategy w csv_path t nm df dfi s st = (Ok tt, st') /\
    grown st st'
      (fun k => if String.eqb (fst s) k
                then strategy_rows w t nm df dfi s else [])
      (strategy_calls csv_path df dfi s).
Proof.
  destruct s as [n strategy]. cbn [fst]. intros Hkey.
  destruct (get (results st) n) as [l|] eqn:Hl;
    [|apply get_none_keys in Hl; tauto].
  unfold evaluate_strategy, try_except, strategy_rows, strategy_calls.
  cbn [fst snd].
  destruct (select_run_df n df dfi) as [run_df|].
  2:{ eexists. split; [reflexivity|]. cbn [ret snd].
      destruct (grown_refl st) as (H1 & H2 & H3). repeat split; auto.
      intros k l' Hk. destruct (String.eqb n k); now rewrite app_nil_r. }
  unfold bind, call_engine.
  set (st1 := mkState (results st)
                (engine_calls st ++ [mkCall csv_path n run_df])).
  assert (Hdone : forall rows, rows = [] ->
            grown st st1 (fun k => if String.eqb n k then rows else [])
              [mkCall csv_path n run_df]).
  { intros rows ->. repeat split. intros k l' Hk. cbn [st1 results].
    destruct (String.eqb n k); now rewrite app_nil_r. }
  destruct (engine_run w run_df strategy) as [m|]; cbn [accepted].
  2:{ eexists. split; [reflexivity|]. now apply Hdone. }
  destruct (min_trades <=? m_trade_count m)%Z.
  2:{ eexists. split; [reflexivity|]. now apply Hdone. }
  unfold append_result. cbn [st1 results engine_calls].
  rewrite (update_item_some _ _ _ Hl). cbn [snd].
  eexists. split; [reflexivity|]. repeat split; cbn [results engine_calls].
  - apply keys_set_present. assumption.
  - intros k l' Hk. destruct (String.eqb_spec n k) as [<-|Hne].
    + rewrite get_set_same. rewrite Hl in Hk. injection Hk as <-. reflexivity.
    + rewrite get_set_other by assumption. now rewrite app_nil_r.
Qed.

Lemma strategy_loop_grown w csv_path t nm df dfi strategies : forall st,
  (forall s, In s strategies -> In (fst s) (keys (results st))) ->
  exists st',
    for_each strategies (evaluate_strategy w csv_path t nm df dfi) st
      = (Ok tt, st') /\
    grown st st'
      (rows_for (strategy_rows w t nm df dfi) strategies)
      (flat_map (strategy_calls csv_path df dfi) strategies).
Proof.
  induction strategies as [|s strategies IH]; intros st Hkeys.
  - exists st. split; [reflexivity|]. apply grown_refl.
  - destruct (@evaluate_strategy_grown w csv_path t nm df dfi s st)
      as (st1 & Hrun & Hg1); [apply Hkeys; now left|].
    destruct (IH st1) as (st' & Hloop & Hg2).
    { intros s' Hs'. destruct Hg1 as (-> & _). apply Hkeys. now right. }
    exists st'. split.
    + rewrite for_each_cons, Hrun. exact Hloop.
    + exact (grown_trans Hg1 Hg2).
Qed.

(** One pass of the file loop never raises, and adds the rows and calls of
    the file's pairs. *)
Lemma scan_file_grown w min_volume strategies csv_path st :
  (forall s, In s strategies -> In (fst s) (keys (results st))) ->
  exists st',
    scan_file w min_volume strategies csv_path st = (Ok tt, st') /\
    grown st st'
      (rows_for (file_rows w min_volume csv_path) strategies)
      (flat_map (file_calls w min_volume csv_path) strategies).
Proof.
  intros Hkeys.
  assert (Hnone : forall (rows : string * Strategy -> list StrategyResult)
                         (calls : string * Strategy -> list EngineCall),
             (forall s, rows s = []) -> (forall s, calls s = []) ->
             grown st st (rows_for rows strategies) (flat_map calls strategies)).
  { intros rows calls Hr Hc.
    assert (E1 : forall k, rows_for rows strategies k = []).
    { intros k. unfold rows_for. induction strategies as [|s l IH]; [reflexivity|].
      cbn [flat_map]. rewrite IH by (intros; apply Hkeys; now right).
      rewrite Hr. now destruct (String.eqb (fst s) k). }
    assert (E2 : flat_map calls strategies = []).
    { clear -Hc. induction strategies as [|s l IH]; [reflexivity|].
      cbn [flat_map]. now rewrite IH, Hc. }
    rewrite E2. destruct (grown_refl st) as (H1 & H2 & H3).
    repeat split; auto. intros k l Hk. rewrite E1. auto. }
  unfold scan_file, try_except, bind, lift, file_rows, file_calls.
  destruct (read_csv w csv_path) as [df|].
  2:{ eexists. split; [reflexivity|]. cbn [snd]. now apply Hnone. }
  destruct (mean_lt (series_mean (volume df)) min_volume).
  { eexists. split; [reflexivity|]. cbn [snd ret]. now apply Hnone. }
  destruct (@strategy_loop_grown w csv_path (ticker_of csv_path)
              (name_of csv_path) df (merged_series w (ticker_of csv_path))
              strategies st Hkeys) as (st' & Hloop & Hg).
  rewrite Hloop. cbn [snd]. now exists st'.
Qed.

Lemma file_loop_grown w min_volume strategies files : forall st,
  (forall s, In s strategies -> In (fst s) (keys (results st))) ->
  exists st',
    for_each files (scan_file w min_volume strategies) st = (Ok tt, st') /\
    grown st st'
      (fun k => flat_map (fun csv_path =>
                            rows_for (file_rows w min_volume csv_path)
                              strategies k) files)
      (flat_map (fun csv_path =>
                   flat_map (file_calls w min_volume csv_path) strategies)
         files).
Proof.
  induction files as [|f files IH]; intros st Hkeys.
  - exists st. split; [reflexivity|]. apply grown_refl.
  - destruct (@scan_file_grown w min_volume strategies f st Hkeys)
      as (st1 & Hrun & Hg1).
    destruct (IH st1) as (st' & Hloop & Hg2).
    { intros s' Hs'. destruct Hg1 as (-> & _). now apply Hkeys. }
    exists st'. split.
    + rewrite for_each_cons, Hrun. exact Hloop.
    + exact (grown_trans Hg1 Hg2).
Qed.

(** The initial [results] dictionary. *)
Lemma empty_results_get strategies n :
  In n (map fst strategies) -> get (empty_results strategies) n = Some [].
Proof.
  unfold empty_results.
  assert (Hkeep : forall l (d : dict (list StrategyResult)),
             get d n = Some [] ->
             get (fold_left (fun d (s : string * Strategy) => set d (fst s) [])
                    l d) n = Some []).
  { induction l as [|s l IH]; intros d Hd; cbn [fold_left]; [assumption|].
    apply IH. destruct (String.eqb_spec (fst s) n) as [->|Hne].
    - apply get_set_same.
    - now rewrite get_set_other. }
  generalize (@nil (string * list StrategyResult)).
  induction strategies as [|s l IH]; intros d Hin; [destruct Hin|].
  cbn [fold_left]. destruct Hin as [<-|Hin].
  - apply Hkeep, get_set_same.
  - now apply IH.
Qed.

Lemma rows_for_unique X (rows : string * Strategy -> list X) strategies n st :
  NoDup (map fst strategies) -> In (n, st) strategies ->
  rows_for rows strategies n = rows (n, st).
Proof.
  unfold rows_for. induction strategies as [|[n' st'] l IH]; [intros _ []|].
  cbn [map fst flat_map]. intros Hnd Hin.
  inversion Hnd as [|? ? Hout Hnd']; subst.
  assert (Hrest : forall l', ~ In n' (map fst l') ->
            flat_map (fun s : string * Strategy =>
                        if String.eqb (fst s) n' then rows s else []) l' = []).
  { induction l' as [|[m sm] l' IH']; [reflexivity|].
    cbn [map fst flat_map]. intros Hno.
    destruct (String.eqb_spec m n') as [->|_]; [exfalso; apply Hno; now left|].
    apply IH'. intros H; apply Hno; now right. }
  destruct Hin as [[= -> ->]|Hin].
  - rewrite String.eqb_refl, Hrest by assumption. apply app_nil_r.
  - destruct (String.eqb_spec n' n) as [->|_].
    + exfalso. apply Hout. change n with (fst (n, st)). now apply in_map.
    + now apply IH.
Qed.

Lemma empty_results_keys strategies k :
  In k (keys (empty_results strategies)) <-> In k (map fst strategies).
Proof.
  split.
  - unfold empty_results.
    assert (Hgen : forall l (d : dict (list StrategyResult)),
               In k (keys (fold_left
                             (fun d (s : string * Strategy) => set d (fst s) [])
                             l d)) ->
               In k (keys d) \/ In k (map fst l)).
    { induction l as [|s l IH]; intros d Hin; cbn [fold_left] in Hin; [now left|].
      apply IH in Hin. destruct Hin as [Hin|Hin]; [|right; now right].
      destruct (in_dec string_dec (fst s) (keys d)) as [Hp|Ha].
      - rewrite keys_set_present in Hin by assumption. now left.
      - rewrite keys_set_absent in Hin by assumption.
        apply in_app_or in Hin. destruct Hin as [Hin|[<-|[]]]; [now left|].
        right. now left. }
    intros Hin. apply Hgen in Hin. now destruct Hin.
  - intros Hin. apply empty_results_get in Hin.
    destruct (in_dec string_dec k (keys (empty_results strategies)))
      as [?|Hout]; [assumption|].
    apply get_none_keys in Hout. congruence.
Qed.

Lemma empty_results_nodup strategies : NoDup (keys (empty_results strategies)).
Proof.
  unfold empty_results.
  assert (Hgen : forall l (d : dict (list StrategyResult)),
             NoDup (keys d) ->
             NoDup (keys (fold_left
                            (fun d (s : string * Strategy) => set d (fst s) [])
                            l d))).
  { induction l as [|s l IH]; intros d Hd; cbn [fold_left]; [assumption|].
    apply IH. now apply nodup_keys_set. }
  apply Hgen. constructor.
Qed.

(** The loop over the universe in closed form: it never raises; under each
    strategy it leaves, file after file, the rows of that strategy's pairs;
    and the engine was called for exactly the calls of the pairs. *)
Lemma scan_universe_closed w min_volume strategies files :
  NoDup (map fst strategies) ->
  exists st,
    scan_universe w min_volume strategies files = (Ok tt, st) /\
    NoDup (keys (results st)) /\
    (forall k, In k (keys (results st)) <-> In k (map fst strategies)) /\
    (forall n strategy, In (n, strategy) strategies ->
       get (results st) n =
       Some (flat_map (fun csv_path =>
                         file_rows w min_volume csv_path (n, strategy)) files)) /\
    engine_calls st =
      flat_map (fun csv_path =>
                  flat_map (file_calls w min_volume csv_path) strategies) files.
Proof.
  intros Hnd. unfold scan_universe.
  destruct (@file_loop_grown w min_volume strategies files
              (mkState (empty_results strategies) [])) as (st & Hrun & Hk & Hg & Hc).
  { intros s Hs. cbn [results]. apply empty_results_keys. now apply in_map. }
  cbn [results engine_calls] in Hk, Hg, Hc.
  exists st. split; [assumption|]. split; [|split; [|split]].
  - rewrite Hk. apply empty_results_nodup.
  - intros k. rewrite Hk. apply empty_results_keys.
  - intros n strategy Hin.
    rewrite (Hg n []).
    + cbn [app]. f_equal. apply flat_map_ext. intros f.
      now apply rows_for_unique.
    + apply empty_results_get. change n with (fst (n, strategy)).
      now apply in_map.
  - exact Hc.
Qed.

Lemma battery_nodup w include_institutional :
  NoDup (map fst (get_all_strategies w include_institutional)).
Proof.
  unfold get_all_strategies.
  destruct (include_institutional &&
            match INSTITUTIONAL_DATA w with Some _ => true | None => false end);
    cbn [map fst app];
    repeat (constructor;
            [cbn [In]; intros H;
             repeat (destruct H as [H|H]; [discriminate H|]); exact H|]);
    constructor.
Qed.

(** ** The scan as a whole *)

Lemma leaderboards_in pd top_n d n lb :
  In (n, lb) (leaderboards pd top_n d) <->
  exists rows, In (n, rows) d /\ lb = leaderboard pd top_n rows.
Proof.
  unfold leaderboards. rewrite in_map_iff. split.
  - intros ([k rows] & [= <- <-] & Hin). now exists rows.
  - intros (rows & Hin & ->). now exists (n, rows).
Qed.

Lemma leaderboards_get pd top_n d n :
  get (leaderboards pd top_n d) n =
  match get d n with
  | Some rows => Some (leaderboard pd top_n rows)
  | None => None
  end.
Proof.
  induction d as [|[k rows] d IH]; cbn; [reflexivity|].
  now destruct (String.eqb n k).
Qed.

(** The scan never raises; it returns the leaderboards of the accumulated
    results, and the ranking computed from these leaderboards with the
    default [top_n] of the aggregator. *)
Lemma market_scan_closed w top_n min_volume :
  exists overall_ranking,
    compute_overall_ranking (sort_values w)
      (leaderboards (sort_values w) top_n (accumulated w min_volume))
      default_top_n = Ok overall_ranking /\
    market_scan_all_strategies w top_n min_volume =
      Ok (leaderboards (sort_values w) top_n (accumulated w min_volume),
          overall_ranking).
Proof.
  unfold market_scan_all_strategies, accumulated.
  destruct (@scan_universe_closed w min_volume (get_all_strategies w true)
              (glob_csv w) (battery_nodup w true)) as (st & Hrun & _).
  rewrite Hrun. cbn [obind snd].
  destruct (compute_overall_ranking_closed (sort_values w)
              (leaderboards (sort_values w) top_n (results st)) default_top_n)
    as (d & _ & _ & _ & Hc).
  eexists. split; [exact Hc|]. now rewrite Hc.
Qed.

(** The accumulated results of a strategy of the battery. *)
Lemma accumulated_get w min_volume n strategy :
  In (n, strategy) (get_all_strategies w true) ->
  get (accumulated w min_volume) n =
  Some (flat_map (fun csv_path => file_rows w min_volume csv_path (n, strategy))
          (glob_csv w)).
Proof.
  unfold accumulated.
  destruct (@scan_universe_closed w min_volume (get_all_strategies w true)
              (glob_csv w) (battery_nodup w true)) as (st & Hrun & _ & _ & Hg & _).
  rewrite Hrun. cbn [snd]. apply Hg.
Qed.

(** Every accumulated list belongs to a strategy of the battery. *)
Lemma accumulated_in w min_volume n rows :
  In (n, rows) (accumulated w min_volume) ->
  exists strategy,
    In (n, strategy) (get_all_strategies w true) /\
    rows = flat_map (fun csv_path =>
                       file_rows w min_volume csv_path (n, strategy))
             (glob_csv w).
Proof.
  unfold accumulated.
  destruct (@scan_universe_closed w min_volume (get_all_strategies w true)
              (glob_csv w) (battery_nodup w true))
    as (st & Hrun & Hnd & Hkeys & Hg & _).
  rewrite Hrun. cbn [snd]. intros Hin.
  assert (Hk : In n (map fst (get_all_strategies w true))).
  { apply Hkeys. change n with (fst (n, rows)). now apply in_map. }
  apply in_map_iff in Hk. destruct Hk as ([n' strategy] & Hn & Hs).
  cbn [fst] in Hn. subst n'. exists strategy. split; [assumption|].
  apply in_get_nodup in Hin; [|assumption].
  rewrite (Hg _ _ Hs) in Hin. congruence.
Qed.

Lemma calls_made_eq w min_volume :
  calls_made w min_volume =
  flat_map (fun csv_path =>
              flat_map (file_calls w min_volume csv_path)
                (get_all_strategies w true)) (glob_csv w).
Proof.
  unfold calls_made.
  destruct (@scan_universe_closed w min_volume (get_all_strategies w true)
              (glob_csv w) (battery_nodup w true)) as (st & Hrun & _ & _ & _ & Hc).
  rewrite Hrun. exact Hc.
Qed.

(** Where a row of a pair comes from. *)
Lemma file_rows_in w min_volume csv_path s row :
  In row (file_rows w min_volume csv_path s) ->
  exists df run_df m,
    read_csv w csv_path = Ok df /\
    mean_lt (series_mean (volume df)) min_volume = false /\
    select_run_df (fst s) df (merged_series w (ticker_of csv_path))
      = Some run_df /\
    engine_run w run_df (snd s) = Ok m /\
    (min_trades <= m_trade_count m)%Z /\
    row = result_row (ticker_of csv_path) (name_of csv_path) m.
Proof.
  unfold file_rows, strategy_rows, accepted.
  destruct (read_csv w csv_path) as [df|] eqn:Hread; [|intros []].
  destruct (mean_lt (series_mean (volume df)) min_volume) eqn:Hgate; [intros []|].
  destruct (select_run_df (fst s) df (merged_series w (ticker_of csv_path)))
    as [run_df|] eqn:Hsel; [|intros []].
  destruct (engine_run w run_df (snd s)) as [m|] eqn:Hrun; [|intros []].
  destruct (Z.leb_spec min_trades (m_trade_count m)) as [Hle|]; [|intros []].
  intros [<-|[]]. exists df, run_df, m. repeat split; auto.
Qed.

(** Where an engine call of a pair comes from. *)
Lemma file_calls_in w min_volume csv_path s call :
  In call (file_calls w min_volume csv_path s) ->
  exists df run_df,
    read_csv w csv_path = Ok df /\
    mean_lt (series_mean (volume df)) min_volume = false /\
    select_run_df (fst s) df (merged_series w (ticker_of csv_path))
      = Some run_df /\
    call = mkCall csv_path (fst s) run_df.
Proof.
  unfold file_calls, strategy_calls.
  destruct (read_csv w csv_path) as [df|] eqn:Hread; [|intros []].
  destruct (mean_lt (series_mean (volume df)) min_volume) eqn:Hgate; [intros []|].
  destruct (select_run_df (fst s) df (merged_series w (ticker_of csv_path)))
    as [run_df|] eqn:Hsel; [|intros []].
  intros [<-|[]]. exists df, run_df. repeat split; auto.
Qed.

(** ** Leaderboards *)

(** C7.  For a non-negative [top_n] the scan returns one leaderboard per
    strategy of the battery; each has at most [top_n] members and is in
    descending order of [sharpe_ratio]: of two adjacent members the earlier
    one has the larger or equal ratio.  A strategy with no accepted result
    gets the empty leaderboard. *)
Theorem leaderboard_bound_and_order w top_n min_volume :
  (0 <= top_n)%Z ->
  exists lbs overall_ranking,
    market_scan_all_strategies w top_n min_volume = Ok (lbs, overall_ranking) /\
    (forall n strategy, In (n, strategy) (get_all_strategies w true) ->
       exists lb, get lbs n = Some lb) /\
    (forall n lb, In (n, lb) lbs ->
       (Z.of_nat (List.length lb) <= top_n)%Z /\
       forall i a b,
         nth_error lb i = Some a -> nth_error lb (S i) = Some b ->
         sharpe_ratio b <= sharpe_ratio a) /\
    (forall n, get (accumulated w min_volume) n = Some [] ->
               get lbs n = Some []).
Proof.
  intros Hn.
  destruct (market_scan_closed w top_n min_volume) as (overall & _ & Hscan).
  eexists. exists overall. split; [exact Hscan|]. split; [|split].
  - intros n strategy Hin. rewrite leaderboards_get.
    rewrite (accumulated_get w min_volume n strategy Hin). eauto.
  - intros n lb Hin. apply leaderboards_in in Hin.
    destruct Hin as (rows & _ & ->). split.
    + now apply leaderboard_length.
    + apply descending_adjacent, leaderboard_descending.
  - intros n Hacc. rewrite leaderboards_get, Hacc. reflexivity.
Qed.


(** ** Institutional strategies without a merged series *)




(** ** Failure isolation *)

Lemma same_on_pair_rows w w' min_volume csv_path s :
  same_on_pair w w' csv_path s ->
  file_rows w' min_volume csv_path s = file_rows w min_volume csv_path s.
Proof.
  intros (Hread & Hmerged & Hengine). unfold file_rows. rewrite Hread.
  destruct (read_csv w csv_path) as [df|] eqn:Hr; [|reflexivity].
  destruct (mean_lt (series_mean (volume df)) min_volume); [reflexivity|].
  unfold strategy_rows.
  assert (Hsel : select_run_df (fst s) df (merged_series w' (ticker_of csv_path))
                 = select_run_df (fst s) df (merged_series w (ticker_of csv_path))).
  { unfold select_run_df.
    destruct (is_institutional (fst s)); [|reflexivity].
    now rewrite Hmerged. }
  rewrite Hsel.
  destruct (select_run_df (fst s) df (merged_series w (ticker_of csv_path)))
    as [run_df|] eqn:Hs; [|reflexivity].
  now rewrite (Hengine df run_df).
Qed.

Lemma file_rows_ticker w min_volume csv_path s row :
  In row (file_rows w min_volume csv_path s) -> ticker row = ticker_of csv_path.
Proof.
  intros H. apply file_rows_in in H.
  destruct H as (df & run_df & m & _ & _ & _ & _ & _ & ->). reflexivity.
Qed.

Lemma flat_map_ext_in A B (f g : A -> list B) l :
  (forall x, In x l -> f x = g x) -> flat_map f l = flat_map g l.
Proof.
  induction l as [|x l IH]; intros H; cbn [flat_map]; [reflexivity|].
  rewrite (H x) by now left. f_equal. apply IH. intros; apply H; now right.
Qed.

Lemma filter_flat_map A B (p : B -> bool) (f : A -> list B) l :
  filter p (flat_map f l) = flat_map (fun x => filter p (f x)) l.
Proof.
  induction l as [|x l IH]; cbn [flat_map]; [reflexivity|].
  now rewrite filter_app, IH.
Qed.

(** C5.  Let [w'] be any behaviour of the collaborators over the same
    universe and battery as [w] (for instance [w] with a failure injected).
    The scan under [w'] returns: no failure propagates, and the results of
    each strategy are, file after file over the whole universe, the rows of
    its pairs.  The results of a strategy are those under [w] when [w']
    behaves like [w] on the strategy's pairs, whatever it does on the pairs
    of other strategies; and when [w'] behaves like [w] on the strategy's
    pairs with the instruments other than [t0], the results of these other
    instruments under the strategy are those under [w]. *)
Theorem failure_isolation w w' top_n min_volume t0 :
  glob_csv w' = glob_csv w ->
  get_all_strategies w' true = get_all_strategies w true ->
  (exists out, market_scan_all_strategies w' top_n min_volume = Ok out) /\
  forall n strategy, In (n, strategy) (get_all_strategies w true) ->
    get (accumulated w' min_volume) n =
      Some (flat_map (fun csv_path =>
                        file_rows w' min_volume csv_path (n, strategy))
              (glob_csv w)) /\
    ((forall csv_path, In csv_path (glob_csv w) ->
        same_on_pair w w' csv_path (n, strategy)) ->
     get (accumulated w' min_volume) n = get (accumulated w min_volume) n) /\
    ((forall csv_path, In csv_path (glob_csv w) ->
        ticker_of csv_path <> t0 ->
        same_on_pair w w' csv_path (n, strategy)) ->
     exists rows rows',
       get (accumulated w min_volume) n = Some rows /\
       get (accumulated w' min_volume) n = Some rows' /\
       other_tickers t0 rows' = other_tickers t0 rows).
Proof.
  intros Hglob Hbat. split.
  { destruct (market_scan_closed w' top_n min_volume) as (overall & _ & H).
    eauto. }
  intros n strategy Hin.
  assert (Hin' : In (n, strategy) (get_all_strategies w' true))
    by now rewrite Hbat.
  pose proof (accumulated_get w min_volume n strategy Hin) as Hw.
  pose proof (accumulated_get w' min_volume n strategy Hin') as Hw'.
  rewrite Hglob in Hw'. split; [exact Hw'|]. split.
  - intros Hsame. rewrite Hw, Hw'. f_equal. apply flat_map_ext_in.
    intros f Hf. now apply same_on_pair_rows, Hsame.
  - intros Hsame. eexists. eexists. split; [exact Hw|]. split; [exact Hw'|].
    unfold other_tickers. rewrite !filter_flat_map. apply flat_map_ext_in.
    intros f Hf. destruct (string_dec (ticker_of f) t0) as [Heq|Hne].
    + assert (Hnone : forall w0,
                filter (fun row => negb (String.eqb (ticker row) t0))
                  (file_rows w0 min_volume f (n, strategy)) = []).
      { intros w0.
        pose proof (@file_rows_ticker w0 min_volume f (n, strategy)) as Ht.
        induction (file_rows w0 min_volume f (n, strategy)) as [|r l IH];
          [reflexivity|].
        cbn [filter]. rewrite (Ht r) by now left.
        rewrite Heq, String.eqb_refl. cbn [negb].
        apply IH. intros row Hr. apply Ht. now right. }
      now rewrite !Hnone.
    + f_equal. now apply same_on_pair_rows, Hsame.
Qed.

(** * Worked scans *)

(** ** A small universe

    Four files: two liquid instruments, one file that cannot be read and one
    instrument below the liquidity gate.  The institutional data is loaded
    but the loader fails for every ticker.  The engine knows three
    strategies; MACD trades too little to be accepted. *)

Definition demo_bars (close vol : Q) : DataFrame :=
  [mkBar "2024-01-02" close close close close vol None;
   mkBar "2024-01-03" close close close close vol None].

Definition tsmc_csv : string := "data/tw-share/dayK/2330_台積電.csv".
Definition honhai_csv : string := "data/tw-share/dayK/2317_鴻海.csv".
Definition thin_csv : string := "data/tw-share/dayK/9999_冷門.csv".
Definition broken_csv : string := "data/tw-share/dayK/0000_壞檔.csv".

Definition demo_read_csv (csv_path : string) : outcome DataFrame :=
  if String.eqb csv_path tsmc_csv then Ok (demo_bars 600 1000)
  else if String.eqb csv_path honhai_csv then Ok (demo_bars 100 1000)
  else if String.eqb csv_path thin_csv then Ok (demo_bars 10 100)
  else Raise.

Definition first_close (df : DataFrame) : Q :=
  match df with
  | b :: _ => bar_close b
  | [] => 0
  end.

Definition demo_engine (df : DataFrame) (s : Strategy) : outcome Metrics :=
  let tsmc := Qeq_bool (first_close df) 600 in
  match s with
  | MACrossStrategy _ 20 =>
      Ok (mkMetrics (1#10) (if tsmc then 2 else 1) (1#20) (1#2) 5)
  | RSIStrategy _ _ =>
      Ok (mkMetrics (1#10) (if tsmc then 1 else 3) (1#20) (1#2) 4)
  | MACDStrategy => Ok (mkMetrics (1#10) 3 (1#20) (1#2) 2)
  | _ => Raise
  end.

Definition demo_world : Collaborators :=
  {| INSTITUTIONAL_DATA := Some (demo_bars 0 0);
     glob_csv := [tsmc_csv; broken_csv; honhai_csv; thin_csv];
     read_csv := demo_read_csv;
     load_stock_with_institutional := fun _ => Raise;
     engine_run := demo_engine;
     sort_values := stable_sorter |}.

(** The same universe with a failure injected: the engine raises for the
    first instrument under RSI. *)
Definition failing_engine (df : DataFrame) (s : Strategy) : outcome Metrics :=
  match s with
  | RSIStrategy _ _ =>
      if Qeq_bool (first_close df) 600 then Raise else demo_engine df s
  | _ => demo_engine df s
  end.

Definition failing_world : Collaborators :=
  {| INSTITUTIONAL_DATA := INSTITUTIONAL_DATA demo_world;
     glob_csv := glob_csv demo_world;
     read_csv := read_csv demo_world;
     load_stock_with_institutional := load_stock_with_institutional demo_world;
     engine_run := failing_engine;
     sort_values := sort_values demo_world |}.

(** ** Leaderboards for the aggregator *)

Definition tsmc_ma : StrategyResult :=
  mkResult "2330" "台積電" (1#10) 2 (1#20) (1#2) 5.
Definition honhai_ma : StrategyResult :=
  mkResult "2317" "鴻海" (1#10) 1 (1#20) (1#2) 5.
Definition tsmc_rsi_loss : StrategyResult :=
  mkResult "2330" "台積電" (-1#10) (-1#2) (1#5) (1#4) 4.

(** C1 fails as stated: with [top_n = 1] and two tickers in a leaderboard,
    the second ticker is a leaderboard member without a composite entry. *)
Example composite_scope_counterexample :
  exists ranking,
    compute_overall_ranking stable_sorter
      [("MA5x20", [tsmc_ma; honhai_ma])] 1 = Ok ranking /\
    ~ (forall t, In t (map e_ticker ranking) <->
                 in_some_leaderboard t [("MA5x20", [tsmc_ma; honhai_ma])]).
Proof.
  eexists. split; [vm_compute; reflexivity|].
  intros H.
  assert (Hin : in_some_leaderboard "2317" [("MA5x20", [tsmc_ma; honhai_ma])]).
  { exists "MA5x20", [tsmc_ma; honhai_ma], honhai_ma.
    repeat split; cbn; auto. }
  apply H in Hin. cbn in Hin. destruct Hin as [Hin|[]]. discriminate Hin.
Qed.

(** C3, the failing case: a ticker whose only Sharpe ratio is [-1/2] gets
    [best_sharpe = 0], which is not the maximum of its ratios, and an empty
    [best_strategy]. *)
Example best_sharpe_of_losing_ticker :
  exists e,
    compute_overall_ranking stable_sorter [("RSI", [tsmc_rsi_loss])] 30
      = Ok [e] /\
    contributing_sharpes (e_ticker e) [("RSI", [tsmc_rsi_loss])] = [-1#2] /\
    e_best_sharpe e = 0 /\
    e_best_strategy e = "".
Proof. eexists. split; [vm_compute; reflexivity|]. repeat split. Qed.

(** C2, the failing case: a scan with [top_n = 1] returns leaderboards of one
    member each and a composite ranking of two entries. *)
Example composite_ranking_exceeds_top_n :
  exists lbs overall_ranking,
    market_scan_all_strategies demo_world 1 500 = Ok (lbs, overall_ranking) /\
    get lbs "MA5x20" = Some [result_row "2330" "台積電"
                               (mkMetrics (1#10) 2 (1#20) (1#2) 5)] /\
    get lbs "RSI" = Some [result_row "2317" "鴻海"
                            (mkMetrics (1#10) 3 (1#20) (1#2) 4)] /\
    map e_ticker overall_ranking = ["2317"; "2330"] /\
    (1 < Z.of_nat (List.length overall_ranking))%Z.
Proof.
  eexists. eexists. split; [vm_compute; reflexivity|].
  repeat split.
Qed.

(** The aggregator keeps at most [top_n] entries, for a non-negative
    [top_n]. *)
Lemma compute_overall_ranking_length pd results top_n :
  (0 <= top_n)%Z ->
  exists ranking,
    compute_overall_ranking pd results top_n = Ok ranking /\
    (Z.of_nat (List.length ranking) <= top_n)%Z.
Proof.
  intros Hn.
  destruct (compute_overall_ranking_closed pd results top_n)
    as (d & _ & _ & _ & Hc).
  eexists. split; [exact Hc|]. unfold top_entries.
  destruct (map entry_of d) as [|e l]; [exact Hn|].
  cbn [empty negb]. now apply head_length.
Qed.

(** The composite ranking of a scan is capped by the default [top_n] of the
    aggregator, whatever [top_n] the scan is given. *)
Lemma composite_ranking_default_bound w top_n min_volume :
  exists lbs overall_ranking,
    market_scan_all_strategies w top_n min_volume = Ok (lbs, overall_ranking) /\
    (Z.of_nat (List.length overall_ranking) <= default_top_n)%Z.
Proof.
  destruct (market_scan_closed w top_n min_volume) as (overall & Hc & Hscan).
  eexists. exists overall. split; [exact Hscan|].
  destruct (@compute_overall_ranking_length (sort_values w)
              (leaderboards (sort_values w) top_n (accumulated w min_volume))
              default_top_n) as (r & Hr & Hlen); [discriminate|].
  rewrite Hc in Hr. injection Hr as <-. exact Hlen.
Qed.

(** The order of two rows of equal Sharpe ratio is not fixed by the contract
    of [sort_values]: one sort that meets it keeps them in scan order, the
    other one swaps them. *)
Example tie_order_depends_on_sort :
  sharpe_ratio tsmc_ma = sharpe_ratio (mkResult "2317" "鴻海" (1#10) 2 (1#20) (1#2) 5) /\
  leaderboard stable_sorter 30
    [tsmc_ma; mkResult "2317" "鴻海" (1#10) 2 (1#20) (1#2) 5]
  = [tsmc_ma; mkResult "2317" "鴻海" (1#10) 2 (1#20) (1#2) 5] /\
  leaderboard tie_reversing_sorter 30
    [tsmc_ma; mkResult "2317" "鴻海" (1#10) 2 (1#20) (1#2) 5]
  = [mkResult "2317" "鴻海" (1#10) 2 (1#20) (1#2) 5; tsmc_ma].
Proof. repeat split. Qed.

(** With a negative [top_n], [head] drops rows from the end instead of
    capping the length. *)
Example leaderboard_negative_top_n :
  leaderboard stable_sorter (-1) [honhai_ma; tsmc_ma; tsmc_rsi_loss]
  = [tsmc_ma; honhai_ma].
Proof. reflexivity. Qed.

(** ** The scenario of the design document

    Instrument A trades 5 times with Sharpe 2 under the first strategy and 4
    times with Sharpe 1 under the second; instrument B trades 3 times with
    Sharpe 3/2 under the first and twice under the second; instrument C is
    below the liquidity gate. *)

Definition scenario_read_csv (csv_path : string) : outcome DataFrame :=
  if String.eqb csv_path "dayK/A_Alpha.csv" then Ok (demo_bars 1 1000)
  else if String.eqb csv_path "dayK/B_Beta.csv" then Ok (demo_bars 2 1000)
  else if String.eqb csv_path "dayK/C_Gamma.csv" then Ok (demo_bars 3 100)
  else Raise.

Definition scenario_engine (df : DataFrame) (s : Strategy) : outcome Metrics :=
  let a := Qeq_bool (first_close df) 1 in
  match s with
  | MACrossStrategy _ 20 =>
      Ok (mkMetrics (1#10) (if a then 2 else 3#2) (1#20) (1#2)
            (if a then 5 else 3))
  | RSIStrategy _ _ =>
      Ok (mkMetrics (1#10) 1 (1#20) (1#2) (if a then 4 else 2))
  | _ => Raise
  end.

Definition scenario_world : Collaborators :=
  {| INSTITUTIONAL_DATA := None;
     glob_csv := ["dayK/A_Alpha.csv"; "dayK/B_Beta.csv"; "dayK/C_Gamma.csv"];
     read_csv := scenario_read_csv;
     load_stock_with_institutional := fun _ => Raise;
     engine_run := scenario_engine;
     sort_values := stable_sorter |}.

Example scenario_scan :
  exists lbs overall_ranking,
    market_scan_all_strategies scenario_world 30 500
      = Ok (lbs, overall_ranking) /\
    option_map (map (fun r => (ticker r, sharpe_ratio r))) (get lbs "MA5x20")
      = Some [("A", 2); ("B", 3#2)] /\
    option_map (map (fun r => (ticker r, sharpe_ratio r))) (get lbs "RSI")
      = Some [("A", 1)] /\
    map (fun e => (e_ticker e, e_strategy_count e)) overall_ranking
      = [("A", 2%nat); ("B", 1%nat)] /\
    Forall2 (fun e score => e_score e == score /\ e_avg_sharpe e == 3#2)
      overall_ranking [3; 3#2].
Proof.
  eexists. eexists. split; [vm_compute; reflexivity|].
  repeat split; repeat constructor; reflexivity.
Qed.

(** ** Instances *)

Lemma composite_scope_up_to_truncation_witness :
  exists stock_stats all ranking,
    collect_stock_stats [("MA5x20", [tsmc_ma; honhai_ma])] = Ok stock_stats /\
    ranking_data stock_stats = Ok all /\
    compute_overall_ranking stable_sorter
      [("MA5x20", [tsmc_ma; honhai_ma])] 2 = Ok ranking /\
    (Z.of_nat (List.length all) <= 2)%Z /\
    In "2317" (map e_ticker ranking).
Proof.
  destruct (composite_scope_up_to_truncation stable_sorter
              [("MA5x20", [tsmc_ma; honhai_ma])] 2)
    as (stock_stats & all & ranking & Hs & Ha & Hr & _ & _ & _ & Hfull).
  exists stock_stats, all, ranking.
  assert (Hlen : (Z.of_nat (List.length all) <= 2)%Z).
  { vm_compute in Hs. injection Hs as <-.
    vm_compute in Ha. injection Ha as <-. vm_compute. discriminate. }
  repeat (split; [assumption|]).
  apply (Hfull Hlen).
  exists "MA5x20", [tsmc_ma; honhai_ma], honhai_ma.
  repeat split; cbn; auto.
Defined.

Lemma leaderboard_bound_and_order_witness :
  (0 <= 30)%Z /\
  exists lbs overall_ranking,
    market_scan_all_strategies demo_world 30 500 = Ok (lbs, overall_ranking) /\
    (forall n strategy, In (n, strategy) (get_all_strategies demo_world true) ->
       exists lb, get lbs n = Some lb) /\
    (forall n lb, In (n, lb) lbs ->
       (Z.of_nat (List.length lb) <= 30)%Z /\
       forall i a b,
         nth_error lb i = Some a -> nth_error lb (S i) = Some b ->
         sharpe_ratio b <= sharpe_ratio a) /\
    (forall n, get (accumulated demo_world 500) n = Some [] ->
               get lbs n = Some []).
Proof.
  split; [discriminate|].
  apply (@leaderboard_bound_and_order demo_world 30 500). discriminate.
Defined.


Lemma failure_isolation_witness :
  glob_csv failing_world = glob_csv demo_world /\
  get_all_strategies failing_world true = get_all_strategies demo_world true /\
  (exists out, market_scan_all_strategies failing_world 30 500 = Ok out) /\
  get (accumulated failing_world 500) "MA5x20" =
    get (accumulated demo_world 500) "MA5x20" /\
  exists rows rows',
    get (accumulated demo_world 500) "RSI" = Some rows /\
    get (accumulated failing_world 500) "RSI" = Some rows' /\
    other_tickers "2330" rows' = other_tickers "2330" rows.
Proof.
  split; [reflexivity|]. split; [reflexivity|].
  destruct (@failure_isolation demo_world failing_world 30 500 "2330"
              eq_refl eq_refl) as [Hret Hiso].
  split; [exact Hret|]. split.
  - apply (Hiso "MA5x20" (MACrossStrategy 5 20)); [now left|].
    intros csv_path _. split; [reflexivity|]. split; [discriminate|].
    intros df run_df _ _. reflexivity.
  - apply (Hiso "RSI" (RSIStrategy 30 70)); [right; right; now left|].
    intros csv_path Hin Hne. split; [reflexivity|]. split; [discriminate|].
    intros df run_df Hread Hsel. cbn in Hsel. injection Hsel as <-.
    destruct Hin as [<-|[<-|[<-|[<-|[]]]]].
    + exfalso. apply Hne. reflexivity.
    + discriminate Hread.
    + injection Hread as <-. reflexivity.
    + injection Hread as <-. reflexivity.
Defined.

(** * Further properties of the aggregator *)

Lemma descending_prefix_suffix A (key : A -> Q) (l : list A) k a b :
  descending key l -> In a (firstn k l) -> In b (skipn k l) -> key b <= key a.
Proof.
  unfold descending. intros Hs.
  assert (Hss : StronglySorted (fun x y => key y <= key x) l).
  { apply Sorted_StronglySorted; [|assumption].
    intros x y z Hxy Hyz. eapply Qle_trans; eassumption. }
  clear Hs. revert k. induction Hss as [|x l Hss IH Hall]; intros k Ha Hb.
  - rewrite firstn_nil in Ha. destruct Ha.
  - destruct k as [|k]; [destruct Ha|]. cbn [firstn skipn] in Ha, Hb.
    destruct Ha as [<-|Ha].
    + rewrite Forall_forall in Hall. apply Hall.
      rewrite <- (firstn_skipn k l). apply in_or_app. now right.
    + eapply IH; eassumption.
Qed.

(** [head] keeps a prefix. *)
Lemma head_prefix A (n : Z) (l : list A) : exists k, head n l = firstn k l.
Proof. unfold head. destruct (0 <=? n)%Z; eauto. Qed.

(** A truncated descending sort holds the largest keys: the rows split into
    the rows kept and the rows left out, and no row left out has a larger
    key than a row kept. *)
Lemma head_sort_keeps_largest A (pd : Sorter) (key : A -> Q) n (l : list A) :
  exists dropped,
    Permutation l (head n (sort_by pd key l) ++ dropped) /\
    forall a b, In a (head n (sort_by pd key l)) -> In b dropped ->
                key b <= key a.
Proof.
  destruct (head_prefix n (sort_by pd key l)) as (k & ->).
  exists (skipn k (sort_by pd key l)). split.
  - rewrite firstn_skipn. apply sort_by_perm.
  - intros a b. apply descending_prefix_suffix, sort_by_desc.
Qed.

Lemma nodup_map_firstn A B (f : A -> B) k (l : list A) :
  NoDup (map f l) -> NoDup (map f (firstn k l)).
Proof.
  intros H. rewrite <- (firstn_skipn k l), map_app in H.
  now apply NoDup_app_remove_r in H.
Qed.

(** X1.  For a non-negative [top_n] the ranking returned by the aggregator
    has at most [top_n] entries, and it is in descending order of score: of
    two adjacent entries the earlier one has the larger or equal score. *)
Theorem ranking_bounded_and_ordered pd results top_n :
  (0 <= top_n)%Z ->
  exists ranking,
    compute_overall_ranking pd results top_n = Ok ranking /\
    (Z.of_nat (List.length ranking) <= top_n)%Z /\
    forall i a b,
      nth_error ranking i = Some a -> nth_error ranking (S i) = Some b ->
      e_score b <= e_score a.
Proof.
  intros Hn.
  destruct (compute_overall_ranking_closed pd results top_n)
    as (d & _ & _ & _ & Hc).
  eexists. split; [exact Hc|]. unfold top_entries.
  destruct (map entry_of d) as [|e l]; cbn [empty negb].
  - split; [exact Hn|]. intros [|i] a b H; discriminate H.
  - split; [now apply head_length|].
    apply descending_adjacent, descending_head, sort_by_desc.
Qed.

Lemma ranking_bounded_and_ordered_witness :
  (0 <= 1)%Z /\
  exists ranking,
    compute_overall_ranking stable_sorter
      [("MA5x20", [tsmc_ma; honhai_ma])] 1 = Ok ranking /\
    (Z.of_nat (List.length ranking) <= 1)%Z /\
    forall i a b,
      nth_error ranking i = Some a -> nth_error ranking (S i) = Some b ->
      e_score b <= e_score a.
Proof.
  split; [discriminate|].
  apply ranking_bounded_and_ordered. discriminate.
Defined.

(** X2.  The ranking keeps the best scores.  The entries computed by the
    second loop split into the ranking returned and the entries left out,
    and no entry left out has a larger score than an entry of the ranking;
    this holds for every [top_n]. *)
Theorem ranking_keeps_best_scores pd results top_n :
  exists stock_stats all ranking dropped,
    collect_stock_stats results = Ok stock_stats /\
    ranking_data stock_stats = Ok all /\
    compute_overall_ranking pd results top_n = Ok ranking /\
    Permutation all (ranking ++ dropped) /\
    forall a b, In a ranking -> In b dropped -> e_score b <= e_score a.
Proof.
  destruct (compute_overall_ranking_closed pd results top_n)
    as (d & Hd & _ & Hall & Hc).
  exists d, (map entry_of d), (top_entries pd top_n (map entry_of d)).
  unfold top_entries in *.
  destruct (map entry_of d) as [|e l] eqn:E; cbn [empty negb] in *.
  - exists []. repeat split; auto. intros a b [].
  - destruct (head_sort_keeps_largest pd e_score top_n (e :: l))
      as (dropped & Hperm & Hle).
    exists dropped. repeat split; auto.
Qed.

(** X3.  No ticker has two entries in the ranking returned. *)
Theorem ranking_tickers_distinct pd results top_n :
  exists ranking,
    compute_overall_ranking pd results top_n = Ok ranking /\
    NoDup (map e_ticker ranking).
Proof.
  destruct (compute_overall_ranking_closed pd results top_n)
    as (d & _ & Hrep & _ & Hc).
  eexists. split; [exact Hc|].
  assert (Hnd : NoDup (map e_ticker (map entry_of d))).
  { rewrite map_map. cbn [entry_of e_ticker]. apply Hrep. }
  unfold top_entries. destruct (negb (empty (map entry_of d))); [|assumption].
  destruct (head_prefix top_n (sort_by pd e_score (map entry_of d))) as (k & ->).
  apply nodup_map_firstn.
  eapply Permutation_NoDup; [|exact Hnd].
  apply Permutation_map, sort_by_perm.
Qed.

Lemma stock_stats_empty_iff results d :
  represents d (flat_rows results) ->
  d = [] <-> forall n df, In (n, df) results -> df = [].
Proof.
  intros [Hnd Hget]. split.
  - intros -> n df Hin. destruct df as [|row df]; [reflexivity|].
    assert (Hne : contributions (ticker row) results <> []).
    { apply contributions_nonempty. exists n, (row :: df), row.
      repeat split; auto. now left. }
    unfold contributions in Hne. specialize (Hget (ticker row)).
    cbn [get] in Hget.
    destruct (filter (for_ticker (ticker row)) (flat_rows results));
      [congruence | discriminate].
  - intros Hall. destruct d as [|[t s] d]; [reflexivity|].
    specialize (Hget t). cbn [get] in Hget. rewrite String.eqb_refl in Hget.
    assert (Hne : contributions t results <> []).
    { unfold contributions. intros E. rewrite E in Hget. discriminate. }
    apply contributions_nonempty in Hne.
    destruct Hne as (n & df & row & Hin & Hrow & _).
    rewrite (Hall n df Hin) in Hrow. destruct Hrow.
Qed.

(** X4.  For a positive [top_n] the ranking is empty exactly when no
    leaderboard has a row; in particular the aggregator returns the empty
    ranking, not an error, when every leaderboard is empty. *)
Theorem ranking_empty_iff pd results top_n :
  (0 < top_n)%Z ->
  exists ranking,
    compute_overall_ranking pd results top_n = Ok ranking /\
    (ranking = [] <-> forall n df, In (n, df) results -> df = []).
Proof.
  intros Hn.
  destruct (compute_overall_ranking_closed pd results top_n)
    as (d & _ & Hrep & _ & Hc).
  eexists. split; [exact Hc|].
  rewrite <- (@stock_stats_empty_iff results d Hrep). unfold top_entries.
  destruct d as [|kv d]; [cbn; tauto|].
  cbn [map empty negb]. split; [|discriminate].
  intros E. exfalso.
  pose proof (sort_by_perm pd e_score (entry_of kv :: map entry_of d)) as Hp.
  apply Permutation_length in Hp.
  destruct (sort_by pd e_score (entry_of kv :: map entry_of d)) as [|x l];
    [discriminate Hp|].
  unfold head in E. destruct (Z.leb_spec 0 top_n) as [_|Hneg]; [|lia].
  destruct (Z.to_nat top_n) eqn:Ek; [lia | discriminate E].
Qed.

(** Two leaderboards without rows. *)
Definition empty_leaderboards : dict (list StrategyResult) :=
  [("MA5x20", []); ("RSI", [])].

Lemma ranking_empty_iff_witness :
  (0 < 30)%Z /\
  exists ranking,
    compute_overall_ranking stable_sorter empty_leaderboards 30 = Ok ranking /\
    (ranking = [] <->
     forall n df, In (n, df) empty_leaderboards -> df = []).
Proof.
  split; [reflexivity|].
  apply ranking_empty_iff. reflexivity.
Defined.

(** X5.  Every entry of the ranking carries the name of the first
    leaderboard row visited for its ticker, the sum of the ticker's
    contributing returns divided by their number, and the label made of its
    contributing strategy names in visiting order. *)
Theorem entry_name_return_label pd results top_n :
  exists ranking,
    compute_overall_ranking pd results top_n = Ok ranking /\
    forall e, In e ranking ->
      let cs := contributions (e_ticker e) results in
      (exists p rest, cs = p :: rest /\ e_name e = name (snd p)) /\
      e_avg_return e =
        py_sum (contributing_returns (e_ticker e) results)
        / inject_Z (Z.of_nat (List.length cs)) /\
      e_strategies e = strategies_label (map fst cs).
Proof.
  destruct (ranking_member pd results top_n) as (ranking & Hc & Hmem).
  exists ranking. split; [assumption|]. intros e He.
  destruct (Hmem e He) as (t & s & Hs & ->).
  apply stats_of_fields in Hs.
  destruct Hs as (Hne & Hname & Hstr & _ & Hret & _).
  cbn [entry_of e_ticker e_name e_avg_return e_strategies fst snd].
  unfold contributing_returns. rewrite Hstr, Hret, Hname, length_map.
  destruct (contributions t results) as [|p rest]; [congruence|].
  repeat split. now exists p, rest.
Qed.

Lemma fold_best_first cs : forall b0 n0,
  let r := fold_left best_step cs (b0, n0) in
  (forall q, In q cs -> sharpe_ratio (snd q) <= fst r) /\
  b0 <= fst r /\
  (r = (b0, n0) \/
   exists before p after,
     cs = before ++ p :: after /\
     r = (sharpe_ratio (snd p), fst p) /\
     b0 < sharpe_ratio (snd p) /\
     (forall q, In q before -> sharpe_ratio (snd q) < sharpe_ratio (snd p)) /\
     (forall q, In q after -> sharpe_ratio (snd q) <= sharpe_ratio (snd p))).
Proof.
  induction cs as [|c cs IH] using rev_ind; intros b0 n0.
  - cbn. split; [intros q []|]. split; [apply Qle_refl | now left].
  - cbv zeta. rewrite fold_left_app. cbn [fold_left].
    destruct (IH b0 n0) as (Hub & Hlo & Hcase). cbv zeta in Hub, Hlo, Hcase.
    set (r := fold_left best_step cs (b0, n0)) in *.
    change (best_step r c)
      with (if Qlt_bool (fst r) (sharpe_ratio (snd c))
            then (sharpe_ratio (snd c), fst c) else r).
    destruct (Qlt_bool (fst r) (sharpe_ratio (snd c))) eqn:E; cbn [fst snd].
    + apply Qlt_bool_true in E.
      assert (Hlt : forall q, In q cs ->
                sharpe_ratio (snd q) < sharpe_ratio (snd c)).
      { intros q Hq. eapply Qle_lt_trans; [apply Hub, Hq | exact E]. }
      split; [|split].
      * intros q Hq. apply in_app_or in Hq. destruct Hq as [Hq|[<-|[]]].
        -- apply Qlt_le_weak. now apply Hlt.
        -- apply Qle_refl.
      * apply Qlt_le_weak. eapply Qle_lt_trans; eassumption.
      * right. exists cs, c, []. repeat split; auto.
        -- eapply Qle_lt_trans; eassumption.
        -- intros q [].
    + apply Qlt_bool_false in E. split; [|split].
      * intros q Hq. apply in_app_or in Hq. destruct Hq as [Hq|[<-|[]]]; auto.
      * assumption.
      * destruct Hcase as [Heq|(before & p & after & -> & Hr & Hb & Hbef & Haft)];
          [now left|].
        right. exists before, p, (after ++ [c]).
        rewrite <- app_assoc. repeat split; auto.
        intros q Hq. apply in_app_or in Hq. destruct Hq as [Hq|[<-|[]]]; auto.
        rewrite Hr in E. exact E.
Qed.

(** X6.  When a ticker has a strictly positive contributing Sharpe ratio,
    [best_sharpe] and [best_strategy] of its entry are the ratio and the
    strategy of the first appearance, in visiting order, that attains the
    largest ratio: every earlier appearance has a strictly smaller ratio and
    every later one a smaller or equal ratio. *)
Theorem best_strategy_first_maximum pd results top_n :
  exists ranking,
    compute_overall_ranking pd results top_n = Ok ranking /\
    forall e, In e ranking ->
      (exists q, In q (contributions (e_ticker e) results) /\
                 0 < sharpe_ratio (snd q)) ->
      exists before p after,
        contributions (e_ticker e) results = before ++ p :: after /\
        e_best_sharpe e = sharpe_ratio (snd p) /\
        e_best_strategy e = fst p /\
        (forall q, In q before -> sharpe_ratio (snd q) < sharpe_ratio (snd p)) /\
        (forall q, In q after -> sharpe_ratio (snd q) <= sharpe_ratio (snd p)).
Proof.
  destruct (ranking_member pd results top_n) as (ranking & Hc & Hmem).
  exists ranking. split; [assumption|]. intros e He.
  destruct (Hmem e He) as (t & s & Hs & ->).
  apply stats_of_fields in Hs.
  destruct Hs as (_ & _ & _ & _ & _ & Hbest).
  cbn [entry_of e_ticker e_best_sharpe e_best_strategy fst snd].
  intros (q & Hq & Hpos).
  destruct (fold_best_first (contributions t results) 0 "")
    as (Hub & _ & Hcase). cbv zeta in Hub, Hcase.
  fold (running_best (contributions t results)) in Hub, Hcase.
  destruct Hcase as [Heq|(before & p & after & Hsplit & Hr & _ & Hbef & Haft)].
  - exfalso. specialize (Hub q Hq). rewrite Heq in Hub. cbn [fst] in Hub.
    exact (Qlt_not_le _ _ Hpos Hub).
  - exists before, p, after. rewrite <- Hbest in Hr. injection Hr as Hb Hn.
    repeat split; auto.
Qed.

(** * Further properties of the battery and of the scan *)

Ltac classify_strategy :=
  vm_compute;
  split;
  [ split;
    [ first [ discriminate | intros _; do 3 eexists; reflexivity ]
    | first [ intros (? & ? & ? & E); discriminate E | intros _; reflexivity ] ]
  | first [ discriminate | intros _; split; [reflexivity | discriminate] ] ].

(** X7.  In the battery the name test of the scan and the class of the
    strategy object agree: a strategy is taken for an institutional one
    (its name contains '連買' or '連賣') exactly when it is an
    [InstitutionalFollowStrategy], and such a strategy is in the battery
    only if institutional strategies are asked for and the institutional
    data is loaded. *)
Theorem battery_classification w include_institutional n strategy :
  In (n, strategy) (get_all_strategies w include_institutional) ->
  (is_institutional n = true <->
   exists investor days threshold,
     strategy = InstitutionalFollowStrategy investor days threshold) /\
  (is_institutional n = true ->
   include_institutional = true /\ INSTITUTIONAL_DATA w <> None).
Proof.
  unfold get_all_strategies.
  destruct include_institutional, (INSTITUTIONAL_DATA w) as [inst|];
    cbn [andb app In]; intros H;
    repeat (destruct H as [H|H]; [injection H as <- <-; classify_strategy|]);
    destruct H.
Qed.

Lemma battery_classification_witness :
  In ("外資連買", InstitutionalFollowStrategy "foreign" 3 100)
     (get_all_strategies demo_world true) /\
  (is_institutional "外資連買" = true <->
   exists investor days threshold,
     InstitutionalFollowStrategy "foreign" 3 100
     = InstitutionalFollowStrategy investor days threshold) /\
  (is_institutional "外資連買" = true ->
   true = true /\ INSTITUTIONAL_DATA demo_world <> None).
Proof.
  assert (H : In ("外資連買", InstitutionalFollowStrategy "foreign" 3 100)
                 (get_all_strategies demo_world true)).
  { cbn. do 8 right. now left. }
  split; [exact H|].
  exact (@battery_classification demo_world true _ _ H).
Defined.

Lemma empty_results_keys_eq strategies :
  NoDup (map fst strategies) ->
  keys (empty_results strategies) = map fst strategies.
Proof.
  unfold empty_results.
  assert (Hgen : forall l (d : dict (list StrategyResult)),
             NoDup (keys d ++ map fst l) ->
             keys (fold_left
                     (fun d (s : string * Strategy) => set d (fst s) []) l d)
             = keys d ++ map fst l).
  { induction l as [|s l IH]; intros d Hnd; cbn [fold_left map].
    - now rewrite app_nil_r.
    - assert (Hout : ~ In (fst s) (keys d)).
      { intros Hin. apply NoDup_remove_2 in Hnd. apply Hnd.
        apply in_or_app. now left. }
      rewrite IH; rewrite keys_set_absent by assumption.
      + now rewrite <- app_assoc.
      + rewrite <- app_assoc. exact Hnd. }
  intros Hnd. now rewrite Hgen.
Qed.

Lemma accumulated_keys w min_volume :
  keys (accumulated w min_volume) = map fst (get_all_strategies w true).
Proof.
  unfold accumulated, scan_universe.
  destruct (@file_loop_grown w min_volume (get_all_strategies w true)
              (glob_csv w)
              (mkState (empty_results (get_all_strategies w true)) []))
    as (st & Hrun & Hk & _).
  { intros s Hs. cbn [results]. apply empty_results_keys. now apply in_map. }
  rewrite Hrun. cbn [snd]. rewrite Hk. cbn [results].
  apply empty_results_keys_eq, battery_nodup.
Qed.

(** X8.  The mapping returned by the scan has one leaderboard per strategy
    of the battery, in the order of the battery: eight when the
    institutional data is not loaded, ten when it is. *)
Theorem leaderboards_follow_battery w top_n min_volume :
  exists lbs overall_ranking,
    market_scan_all_strategies w top_n min_volume = Ok (lbs, overall_ranking) /\
    map fst lbs = map fst (get_all_strategies w true) /\
    List.length lbs =
      match INSTITUTIONAL_DATA w with Some _ => 10%nat | None => 8%nat end.
Proof.
  destruct (market_scan_closed w top_n min_volume) as (overall & _ & Hscan).
  eexists. exists overall. split; [exact Hscan|].
  assert (Hk : map fst (leaderboards (sort_values w) top_n
                          (accumulated w min_volume))
               = map fst (get_all_strategies w true)).
  { unfold leaderboards. rewrite map_map. cbn [fst].
    apply accumulated_keys. }
  split; [exact Hk|].
  rewrite <- (length_map fst), Hk. unfold get_all_strategies. cbn [andb].
  now destruct (INSTITUTIONAL_DATA w).
Qed.

(** X9.  Every call of the engine made by the scan is for a file of the
    universe that was read and passed the liquidity gate, and for a strategy
    of the battery.  An institutional strategy is run on the merged series
    of the instrument, which is then not empty; every other strategy is run
    on the price frame read from the file. *)
Theorem engine_calls_justified w min_volume call :
  In call (calls_made w min_volume) ->
  exists strategy df,
    In (call_path call) (glob_csv w) /\
    In (call_strategy call, strategy) (get_all_strategies w true) /\
    read_csv w (call_path call) = Ok df /\
    mean_lt (series_mean (volume df)) min_volume = false /\
    if is_institutional (call_strategy call)
    then merged_series w (ticker_of (call_path call)) = Some (call_df call) /\
         call_df call <> []
    else call_df call = df.
Proof.
  intros Hcall. rewrite calls_made_eq in Hcall.
  apply in_flat_map in Hcall. destruct Hcall as (f & Hf & Hcall).
  apply in_flat_map in Hcall. destruct Hcall as ([n strategy] & Hs & Hcall).
  apply file_calls_in in Hcall.
  destruct Hcall as (df & run_df & Hread & Hgate & Hsel & ->).
  cbn [call_path call_strategy call_df fst] in *.
  exists strategy, df. repeat split; try assumption.
  unfold select_run_df in Hsel.
  destruct (is_institutional n).
  - destruct (merged_series w (ticker_of f)) as [merged|]; [|discriminate].
    destruct merged as [|bar merged]; [discriminate|].
    injection Hsel as <-. split; [reflexivity | discriminate].
  - now injection Hsel as <-.
Qed.

Lemma engine_calls_justified_witness :
  In (mkCall tsmc_csv "RSI" (demo_bars 600 1000)) (calls_made demo_world 500) /\
  exists strategy df,
    In tsmc_csv (glob_csv demo_world) /\
    In ("RSI", strategy) (get_all_strategies demo_world true) /\
    read_csv demo_world tsmc_csv = Ok df /\
    mean_lt (series_mean (volume df)) 500 = false /\
    demo_bars 600 1000 = df.
Proof.
  assert (H : In (mkCall tsmc_csv "RSI" (demo_bars 600 1000))
                 (calls_made demo_world 500)).
  { vm_compute. do 2 right. now left. }
  split; [exact H|].
  exact (engine_calls_justified demo_world 500 _ H).
Defined.

Lemma flat_map_length_le A B (f : A -> list B) (l : list A) c :
  (forall x, List.length (f x) <= c)%nat ->
  (List.length (flat_map f l) <= List.length l * c)%nat.
Proof.
  intros H. induction l as [|x l IH]; cbn [flat_map List.length]; [lia|].
  rewrite length_app. specialize (H x). lia.
Qed.

Lemma file_rows_shape w min_volume csv_path s :
  file_rows w min_volume csv_path s = [] \/
  exists m, file_rows w min_volume csv_path s
            = [result_row (ticker_of csv_path) (name_of csv_path) m].
Proof.
  unfold file_rows, strategy_rows, accepted.
  destruct (read_csv w csv_path) as [df|]; [|now left].
  destruct (mean_lt (series_mean (volume df)) min_volume); [now left|].
  destruct (select_run_df (fst s) df (merged_series w (ticker_of csv_path)))
    as [run_df|]; [|now left].
  destruct (engine_run w run_df (snd s)) as [m|]; [|now left].
  destruct (min_trades <=? m_trade_count m)%Z; [right; eauto | now left].
Qed.

Lemma file_calls_length w min_volume csv_path s :
  (List.length (file_calls w min_volume csv_path s) <= 1)%nat.
Proof.
  unfold file_calls, strategy_calls.
  destruct (read_csv w csv_path) as [df|]; [|cbn; lia].
  destruct (mean_lt (series_mean (volume df)) min_volume); [cbn; lia|].
  destruct (select_run_df (fst s) df (merged_series w (ticker_of csv_path)));
    cbn; lia.
Qed.

Lemma calls_made_length w min_volume :
  (List.length (calls_made w min_volume)
   <= List.length (glob_csv w) * List.length (get_all_strategies w true))%nat.
Proof.
  rewrite calls_made_eq. apply flat_map_length_le. intros f.
  pose proof (@flat_map_length_le _ _ (file_calls w min_volume f)
                (get_all_strategies w true) 1
                (file_calls_length w min_volume f)).
  lia.
Qed.

(** The call was made for the file [csv_path] under the strategy named
    [n]. *)
Definition call_for (csv_path n : string) (call : EngineCall) : bool :=
  String.eqb (call_path call) csv_path && String.eqb (call_strategy call) n.

Lemma file_calls_shape w min_volume csv_path s :
  file_calls w min_volume csv_path s = [] \/
  exists run_df,
    file_calls w min_volume csv_path s = [mkCall csv_path (fst s) run_df].
Proof.
  unfold file_calls, strategy_calls.
  destruct (read_csv w csv_path) as [df|]; [|now left].
  destruct (mean_lt (series_mean (volume df)) min_volume); [now left|].
  destruct (select_run_df (fst s) df (merged_series w (ticker_of csv_path)))
    as [run_df|]; [right; eauto | now left].
Qed.

Lemma calls_for_pair_in_file w min_volume csv_path n g strategies :
  NoDup (map fst strategies) ->
  (List.length
     (filter (call_for csv_path n)
        (flat_map (file_calls w min_volume g) strategies))
   <= if String.eqb g csv_path then 1 else 0)%nat.
Proof.
  intros Hnd.
  assert (Hnone : forall l,
            (String.eqb g csv_path = false \/ ~ In n (map fst l)) ->
            filter (call_for csv_path n)
              (flat_map (file_calls w min_volume g) l) = []).
  { induction l as [|s l IH]; intros H; [reflexivity|].
    cbn [flat_map]. rewrite filter_app, IH.
    - rewrite app_nil_r.
      destruct (file_calls_shape w min_volume g s) as [->|(run_df & ->)];
        [reflexivity|].
      cbn [filter]. unfold call_for. cbn [call_path call_strategy].
      destruct H as [->|Hout]; [reflexivity|].
      destruct (String.eqb_spec (fst s) n) as [<-|_];
        [exfalso; apply Hout; now left|].
      now rewrite andb_false_r.
    - destruct H as [H|H]; [now left|]. right. intros Hin. apply H. now right. }
  destruct (String.eqb g csv_path) eqn:Eg;
    [|rewrite Hnone by (now left); apply Nat.le_refl].
  induction strategies as [|s l IH]; [cbn; lia|].
  cbn [map] in Hnd. inversion Hnd as [|? ? Hout Hrest]; subst.
  cbn [flat_map]. rewrite filter_app, length_app.
  destruct (String.eqb_spec (fst s) n) as [<-|Hne].
  - rewrite (Hnone l) by (now right). cbn [List.length].
    destruct (file_calls_shape w min_volume g s) as [->|(run_df & ->)];
      [cbn; lia|].
    cbn [filter]. destruct (call_for csv_path (fst s) _); cbn; lia.
  - specialize (IH Hrest).
    assert (E : filter (call_for csv_path n) (file_calls w min_volume g s) = []).
    { destruct (file_calls_shape w min_volume g s) as [->|(run_df & ->)];
        [reflexivity|].
      cbn [filter]. unfold call_for. cbn [call_path call_strategy].
      apply String.eqb_neq in Hne. now rewrite Hne, andb_false_r. }
    rewrite E. cbn [List.length]. lia.
Qed.

Lemma calls_for_pair_count w min_volume csv_path n strategies files :
  NoDup (map fst strategies) ->
  (List.length
     (filter (call_for csv_path n)
        (flat_map (fun g => flat_map (file_calls w min_volume g) strategies)
           files))
   <= count_occ string_dec files csv_path)%nat.
Proof.
  intros Hnd. induction files as [|g files IH]; [cbn; lia|].
  cbn [flat_map count_occ]. rewrite filter_app, length_app.
  pose proof (@calls_for_pair_in_file w min_volume csv_path n g strategies Hnd)
    as Hg.
  destruct (string_dec g csv_path) as [->|Hne].
  - rewrite String.eqb_refl in Hg. lia.
  - apply String.eqb_neq in Hne. rewrite Hne in Hg. lia.
Qed.

(** X10.  The scan calls the engine at most once for each pair of a file of
    the universe and a strategy of the battery: the calls made for a file
    under a strategy are at most as many as the occurrences of the file in
    the universe, so at most one when the universe lists each file once, as
    [glob] does, and none for a file outside the universe.  In all there are
    at most [len(files) * len(strategies)] calls. *)
Theorem engine_calls_once_per_pair w min_volume csv_path n :
  (List.length (filter (call_for csv_path n) (calls_made w min_volume))
   <= count_occ string_dec (glob_csv w) csv_path)%nat /\
  (NoDup (glob_csv w) ->
   (List.length (filter (call_for csv_path n) (calls_made w min_volume))
    <= 1)%nat) /\
  (~ In csv_path (glob_csv w) ->
   filter (call_for csv_path n) (calls_made w min_volume) = []) /\
  (List.length (calls_made w min_volume)
   <= List.length (glob_csv w) * List.length (get_all_strategies w true))%nat.
Proof.
  assert (Hcount :
    (List.length (filter (call_for csv_path n) (calls_made w min_volume))
     <= count_occ string_dec (glob_csv w) csv_path)%nat).
  { rewrite calls_made_eq. apply calls_for_pair_count, battery_nodup. }
  split; [exact Hcount|]. split; [|split].
  - intros Hnd.
    pose proof (proj1 (NoDup_count_occ string_dec (glob_csv w)) Hnd csv_path).
    lia.
  - intros Hout.
    apply (count_occ_not_In string_dec) in Hout. rewrite Hout in Hcount.
    destruct (filter (call_for csv_path n) (calls_made w min_volume));
      [reflexivity | cbn in Hcount; lia].
  - apply calls_made_length.
Qed.

Lemma engine_calls_once_per_pair_witness :
  NoDup (glob_csv demo_world) /\
  (List.length (filter (call_for tsmc_csv "RSI") (calls_made demo_world 500))
   <= 1)%nat /\
  List.length (filter (call_for tsmc_csv "RSI") (calls_made demo_world 500))
  = 1%nat.
Proof.
  assert (Hnd : NoDup (glob_csv demo_world)).
  { cbn [glob_csv demo_world].
    repeat (constructor;
            [cbn [In]; intros H;
             repeat (destruct H as [H|H]; [discriminate H|]); exact H|]).
    constructor. }
  split; [exact Hnd|]. split.
  - exact (proj1 (proj2 (engine_calls_once_per_pair demo_world 500
                           tsmc_csv "RSI")) Hnd).
  - reflexivity.
Defined.

Lemma accumulated_rows_order w min_volume n strategy :
  In (n, strategy) (get_all_strategies w true) ->
  exists rows keep,
    get (accumulated w min_volume) n = Some rows /\
    map ticker rows = map ticker_of (filter keep (glob_csv w)) /\
    map name rows = map name_of (filter keep (glob_csv w)).
Proof.
  intros Hin. eexists.
  exists (fun f => negb (empty (file_rows w min_volume f (n, strategy)))).
  split; [exact (@accumulated_get w min_volume n strategy Hin)|].
  induction (glob_csv w) as [|f files [IH1 IH2]]; [now split|].
  cbn [flat_map filter].
  destruct (file_rows_shape w min_volume f (n, strategy)) as [->|(m & ->)];
    cbn [empty negb app map]; [now split|].
  rewrite IH1, IH2. now split.
Qed.

(** X11.  The accepted results of a strategy are accumulated in the order of
    the universe, at most one for each file: their tickers and names are
    those of the files of a selection of the universe, in the same order. *)
Theorem results_follow_universe_order w min_volume n strategy :
  In (n, strategy) (get_all_strategies w true) ->
  exists rows keep,
    get (accumulated w min_volume) n = Some rows /\
    map ticker rows = map ticker_of (filter keep (glob_csv w)) /\
    map name rows = map name_of (filter keep (glob_csv w)).
Proof. apply accumulated_rows_order. Qed.

Lemma results_follow_universe_order_witness :
  In ("RSI", RSIStrategy 30 70) (get_all_strategies demo_world true) /\
  exists rows keep,
    get (accumulated demo_world 500) "RSI" = Some rows /\
    map ticker rows = map ticker_of (filter keep (glob_csv demo_world)) /\
    map name rows = map name_of (filter keep (glob_csv demo_world)).
Proof.
  assert (H : In ("RSI", RSIStrategy 30 70) (get_all_strategies demo_world true)).
  { cbn. do 2 right. now left. }
  split; [exact H|].
  exact (results_follow_universe_order demo_world 500 _ _ H).
Defined.

Lemma mean_lt_monotone m lo hi :
  lo <= hi -> mean_lt m lo = true -> mean_lt m hi = true.
Proof.
  destruct m as [x|]; cbn [mean_lt]; [|discriminate].
  rewrite !Qlt_bool_true. intros Hle Hlt. eapply Qlt_le_trans; eassumption.
Qed.

Lemma file_rows_raise_min_volume w lo hi csv_path s :
  lo <= hi ->
  file_rows w hi csv_path s = [] \/
  file_rows w hi csv_path s = file_rows w lo csv_path s.
Proof.
  intros Hle. unfold file_rows.
  destruct (read_csv w csv_path) as [df|]; [|now left].
  destruct (mean_lt (series_mean (volume df)) hi) eqn:Hhi; [now left|].
  destruct (mean_lt (series_mean (volume df)) lo) eqn:Hlo; [|now right].
  apply (mean_lt_monotone _ Hle) in Hlo. congruence.
Qed.

(** X12.  Raising [min_volume] never adds an accepted result: under the
    higher bound the accumulated results of a strategy are among those
    under the lower bound, and there are not more of them. *)
Theorem raising_min_volume_removes w lo hi n strategy :
  lo <= hi ->
  In (n, strategy) (get_all_strategies w true) ->
  exists rows_lo rows_hi,
    get (accumulated w lo) n = Some rows_lo /\
    get (accumulated w hi) n = Some rows_hi /\
    (forall row, In row rows_hi -> In row rows_lo) /\
    (List.length rows_hi <= List.length rows_lo)%nat.
Proof.
  intros Hle Hin. eexists. eexists.
  split; [exact (@accumulated_get w lo n strategy Hin)|].
  split; [exact (@accumulated_get w hi n strategy Hin)|].
  induction (glob_csv w) as [|f files [IH1 IH2]]; [split; auto|].
  cbn [flat_map].
  destruct (@file_rows_raise_min_volume w lo hi f (n, strategy) Hle) as [->| ->].
  - cbn [app]. split.
    + intros row Hrow. apply in_or_app. right. now apply IH1.
    + rewrite length_app. lia.
  - split.
    + intros row Hrow. apply in_app_or in Hrow. apply in_or_app.
      destruct Hrow; [now left | right; now apply IH1].
    + rewrite !length_app. lia.
Qed.

Lemma raising_min_volume_removes_witness :
  500 <= 2000 /\
  In ("RSI", RSIStrategy 30 70) (get_all_strategies demo_world true) /\
  exists rows_lo rows_hi,
    get (accumulated demo_world 500) "RSI" = Some rows_lo /\
    get (accumulated demo_world 2000) "RSI" = Some rows_hi /\
    (forall row, In row rows_hi -> In row rows_lo) /\
    (List.length rows_hi <= List.length rows_lo)%nat.
Proof.
  assert (H1 : 500 <= 2000) by discriminate.
  assert (H2 : In ("RSI", RSIStrategy 30 70) (get_all_strategies demo_world true)).
  { cbn. do 2 right. now left. }
  split; [exact H1|]. split; [exact H2|].
  exact (@raising_min_volume_removes demo_world 500 2000 _ _ H1 H2).
Defined.

Lemma empty_results_eq strategies :
  NoDup (map fst strategies) ->
  empty_results strategies
  = map (fun s : string * Strategy => (fst s, [])) strategies.
Proof.
  intros Hnd.
  assert (Hval : forall kv, In kv (empty_results strategies) -> snd kv = []).
  { intros [k v] Hin. cbn [snd].
    assert (Hk : In k (map fst strategies)).
    { apply empty_results_keys. change k with (fst (k, v)). now apply in_map. }
    apply in_get_nodup in Hin; [|apply empty_results_nodup].
    rewrite (empty_results_get strategies k Hk) in Hin. congruence. }
  pose proof (@empty_results_keys_eq strategies Hnd) as Hk. unfold keys in Hk.
  revert Hk Hval. generalize (empty_results strategies).
  clear Hnd. induction strategies as [|s l IH]; intros d Hk Hval.
  - destruct d; [reflexivity | discriminate].
  - destruct d as [|[k v] d]; [discriminate|].
    cbn [map fst] in Hk. injection Hk as Hk1 Hk2.
    cbn [map]. f_equal.
    + specialize (Hval (k, v) (or_introl eq_refl)). cbn [snd] in Hval.
      congruence.
    + apply IH; [assumption|]. intros kv Hin. apply Hval. now right.
Qed.

(** X13.  Over an empty universe the scan returns an empty leaderboard for
    every strategy of the battery and the empty composite ranking. *)
Theorem empty_universe_scan w top_n min_volume :
  glob_csv w = [] ->
  market_scan_all_strategies w top_n min_volume =
  Ok (map (fun s : string * Strategy => (fst s, [])) (get_all_strategies w true),
      []).
Proof.
  intros Hfiles. unfold market_scan_all_strategies, scan_universe.
  rewrite Hfiles. cbn [for_each ret obind results].
  rewrite (@empty_results_eq _ (battery_nodup w true)).
  set (lbs := leaderboards (sort_values w) top_n
                (map (fun s : string * Strategy => (fst s, []))
                   (get_all_strategies w true))).
  assert (Hlbs : lbs = map (fun s : string * Strategy => (fst s, []))
                         (get_all_strategies w true)).
  { unfold lbs, leaderboards. rewrite map_map. reflexivity. }
  rewrite Hlbs.
  destruct (compute_overall_ranking_closed (sort_values w)
              (map (fun s : string * Strategy => (fst s, @nil StrategyResult))
                 (get_all_strategies w true)) default_top_n)
    as (d & _ & Hrep & _ & Hc).
  rewrite Hc. cbn [obind].
  assert (Hd : d = []).
  { apply (@stock_stats_empty_iff _ d Hrep). intros n df Hin.
    apply in_map_iff in Hin. destruct Hin as (s & [= _ <-] & _). reflexivity. }
  now rewrite Hd.
Qed.

(** An empty universe. *)
Definition empty_world : Collaborators :=
  {| INSTITUTIONAL_DATA := None;
     glob_csv := [];
     read_csv := demo_read_csv;
     load_stock_with_institutional := fun _ => Raise;
     engine_run := demo_engine;
     sort_values := stable_sorter |}.

Lemma empty_universe_scan_witness :
  glob_csv empty_world = [] /\
  market_scan_all_strategies empty_world 30 500 =
  Ok (map (fun s : string * Strategy => (fst s, []))
        (get_all_strategies empty_world true),
      []).
Proof.
  split; [reflexivity|].
  apply (@empty_universe_scan empty_world 30 500). reflexivity.
Defined.

(** X14.  The composite ranking of a scan has at most 30 entries, the
    default of the aggregator, whatever [top_n] the scan is given; so it has
    at most [top_n] entries when [top_n] is 30 or more. *)
Theorem composite_ranking_bound w top_n min_volume :
  exists lbs overall_ranking,
    market_scan_all_strategies w top_n min_volume = Ok (lbs, overall_ranking) /\
    (List.length overall_ranking <= 30)%nat /\
    ((30 <= top_n)%Z ->
     (Z.of_nat (List.length overall_ranking) <= top_n)%Z).
Proof.
  destruct (market_scan_closed w top_n min_volume) as (overall & Hc & Hscan).
  eexists. exists overall. split; [exact Hscan|].
  destruct (@compute_overall_ranking_length (sort_values w)
              (leaderboards (sort_values w) top_n (accumulated w min_volume))
              default_top_n) as (r & Hr & Hlen); [discriminate|].
  rewrite Hc in Hr. injection Hr as <-. unfold default_top_n in Hlen.
  split; lia.
Qed.

(** X15.  Each leaderboard keeps the best Sharpe ratios of its strategy.
    The accumulated results of the strategy split into the leaderboard and
    the results left out, and no result left out has a larger Sharpe ratio
    than a member of the leaderboard. *)
Theorem leaderboard_keeps_best_sharpes w top_n min_volume :
  exists lbs overall_ranking,
    market_scan_all_strategies w top_n min_volume = Ok (lbs, overall_ranking) /\
    forall n lb, In (n, lb) lbs ->
      exists rows dropped,
        get (accumulated w min_volume) n = Some rows /\
        Permutation rows (lb ++ dropped) /\
        forall a b, In a lb -> In b dropped ->
                    sharpe_ratio b <= sharpe_ratio a.
Proof.
  destruct (market_scan_closed w top_n min_volume) as (overall & _ & Hscan).
  eexists. exists overall. split; [exact Hscan|].
  intros n lb Hin. apply leaderboards_in in Hin.
  destruct Hin as (rows & Hrows & ->).
  assert (Hget : get (accumulated w min_volume) n = Some rows).
  { apply in_get_nodup; [|assumption].
    rewrite accumulated_keys. apply battery_nodup. }
  exists rows. unfold leaderboard.
  destruct rows as [|r rows]; cbn [empty negb].
  - exists []. repeat split; auto. intros a b [].
  - destruct (head_sort_keeps_largest (sort_values w) sharpe_ratio top_n
                (r :: rows)) as (dropped & Hperm & Hle).
    exists dropped. repeat split; auto.
Qed.

(** * Further properties of the file names *)

(** The character [c] occurs in [s]. *)
Fixpoint has_char (c : ascii) (s : string) : bool :=
  match s with
  | EmptyString => false
  | String c' s' => Ascii.eqb c' c || has_char c s'
  end.

(** The file name [ticker_name.csv]. *)
Definition csv_file (ticker name : string) : string :=
  String.append ticker (String "_"%char (String.append name ".csv")).

Lemma has_char_append c a b :
  has_char c (String.append a b) = has_char c a || has_char c b.
Proof.
  induction a as [|x a IH]; cbn [String.append has_char]; [reflexivity|].
  now rewrite IH, orb_assoc.
Qed.

Lemma basename_from_plain acc s :
  has_char "/"%char s = false -> basename_from acc s = String.append acc s.
Proof.
  revert acc. induction s as [|c s IH]; intros acc H; cbn [basename_from].
  - clear. induction acc as [|x acc IH]; cbn; congruence.
  - cbn [has_char] in H. apply orb_false_iff in H. destruct H as [Hc Hs].
    rewrite Hc, IH by assumption. clear.
    induction acc as [|x acc IH]; cbn; congruence.
Qed.

Lemma basename_from_dir dir base : forall acc,
  has_char "/"%char base = false ->
  basename_from acc (String.append dir (String "/"%char base)) = base.
Proof.
  induction dir as [|c dir IH]; intros acc H; cbn [String.append basename_from].
  - rewrite Ascii.eqb_refl. now rewrite basename_from_plain.
  - destruct (Ascii.eqb c "/"%char); now apply IH.
Qed.

Lemma before_first_append sep t rest :
  has_char sep t = false ->
  before_first sep (String.append t (String sep rest)) = t.
Proof.
  induction t as [|c t IH]; intros H; cbn [String.append before_first].
  - now rewrite Ascii.eqb_refl.
  - cbn [has_char] in H. apply orb_false_iff in H. destruct H as [Hc Ht].
    rewrite Hc. f_equal. now apply IH.
Qed.

Lemma after_first_append sep t rest :
  has_char sep t = false ->
  after_first sep (String.append t (String sep rest)) = Some rest.
Proof.
  induction t as [|c t IH]; intros H; cbn [String.append after_first].
  - now rewrite Ascii.eqb_refl.
  - cbn [has_char] in H. apply orb_false_iff in H. destruct H as [Hc Ht].
    rewrite Hc. now apply IH.
Qed.

Lemma remove_all_extension s :
  has_char "."%char s = false ->
  remove_all ".csv" (String.append s ".csv") = s.
Proof.
  unfold remove_all. induction s as [|c s IH]; intros H; [reflexivity|].
  cbn [has_char] in H. apply orb_false_iff in H. destruct H as [Hc Hs].
  cbn [String.append remove_all_from String.prefix].
  destruct (ascii_dec "."%char c) as [<-|Hne]; [discriminate Hc|].
  f_equal. now apply IH.
Qed.

(** X16.  The ticker and the display name are read back from the file name:
    for a file [ticker_name.csv], alone or under any directory, whose ticker
    contains no ['/'], ['_'] or ['.'] and whose name contains no ['/'] or
    ['.'], the scan takes [ticker] for the ticker and [name] for the name;
    the name may contain underscores. *)
Theorem file_name_round_trip dir t nm :
  has_char "/"%char t = false ->
  has_char "_"%char t = false ->
  has_char "."%char t = false ->
  has_char "/"%char nm = false ->
  has_char "."%char nm = false ->
  (ticker_of (csv_file t nm) = t /\ name_of (csv_file t nm) = nm) /\
  (ticker_of (String.append dir (String "/"%char (csv_file t nm))) = t /\
   name_of (String.append dir (String "/"%char (csv_file t nm))) = nm).
Proof.
  intros Hts Htu Htd Hns Hnd.
  assert (Hbase : has_char "/"%char (csv_file t nm) = false).
  { unfold csv_file. rewrite has_char_append. cbn [has_char].
    rewrite has_char_append, Hts, Hns. reflexivity. }
  assert (Hcore : before_first "_"%char (csv_file t nm) = t /\
                  split1_last "_"%char (remove_all ".csv" (csv_file t nm)) = nm).
  { split; [now apply before_first_append|].
    assert (E : csv_file t nm
                = String.append (String.append t (String "_"%char nm)) ".csv").
    { unfold csv_file. clear. induction t as [|c t IH]; cbn; congruence. }
    rewrite E, remove_all_extension.
    - unfold split1_last. now rewrite after_first_append.
    - rewrite has_char_append. cbn [has_char]. now rewrite Htd, Hnd. }
  unfold ticker_of, name_of, basename.
  rewrite basename_from_dir by assumption.
  rewrite basename_from_plain by assumption. cbn [String.append].
  split; exact Hcore.
Qed.

Lemma file_name_round_trip_witness :
  has_char "/"%char "2330" = false /\
  has_char "_"%char "2330" = false /\
  has_char "."%char "2330" = false /\
  has_char "/"%char "台積電" = false /\
  has_char "."%char "台積電" = false /\
  (ticker_of (csv_file "2330" "台積電") = "2330" /\
   name_of (csv_file "2330" "台積電") = "台積電") /\
  (ticker_of (String.append "data/tw-share/dayK"
                (String "/"%char (csv_file "2330" "台積電"))) = "2330" /\
   name_of (String.append "data/tw-share/dayK"
              (String "/"%char (csv_file "2330" "台積電"))) = "台積電").
Proof.
  repeat (split; [reflexivity|]).
  apply (@file_name_round_trip "data/tw-share/dayK" "2330" "台積電");
    reflexivity.
Defined.

Lemma before_first_absent sep s :
  has_char sep s = false -> before_first sep s = s.
Proof.
  induction s as [|c s IH]; intros H; cbn [before_first]; [reflexivity|].
  cbn [has_char] in H. apply orb_false_iff in H. destruct H as [Hc Hs].
  rewrite Hc. f_equal. now apply IH.
Qed.

Lemma after_first_absent sep s :
  has_char sep s = false -> after_first sep s = None.
Proof.
  induction s as [|c s IH]; intros H; cbn [after_first]; [reflexivity|].
  cbn [has_char] in H. apply orb_false_iff in H. destruct H as [Hc Hs].
  rewrite Hc. now apply IH.
Qed.

Lemma remove_all_from_keeps_absent c pat s : forall skip,
  has_char c s = false -> has_char c (remove_all_from pat skip s) = false.
Proof.
  induction s as [|x s IH]; intros skip H; cbn [remove_all_from]; [reflexivity|].
  cbn [has_char] in H. apply orb_false_iff in H. destruct H as [Hc Hs].
  destruct skip; [|now apply IH].
  destruct (String.prefix pat (String x s)); [now apply IH|].
  cbn [has_char]. rewrite Hc. now apply IH.
Qed.

(** X17.  A file whose base name has no underscore gets its whole base name,
    extension included, for a ticker, and the base name without ['.csv'] for
    a name. *)
Theorem file_name_without_underscore csv_path :
  has_char "_"%char (basename csv_path) = false ->
  ticker_of csv_path = basename csv_path /\
  name_of csv_path = remove_all ".csv" (basename csv_path).
Proof.
  intros H. unfold ticker_of, name_of, split1_last. split.
  - now apply before_first_absent.
  - rewrite after_first_absent; [reflexivity|].
    now apply remove_all_from_keeps_absent.
Qed.

Lemma file_name_without_underscore_witness :
  has_char "_"%char (basename "dayK/2330.csv") = false /\
  ticker_of "dayK/2330.csv" = "2330.csv" /\
  name_of "dayK/2330.csv" = "2330".
Proof.
  split; [reflexivity|].
  apply (@file_name_without_underscore "dayK/2330.csv"). reflexivity.
Defined.

(** * Further properties of the scan and the aggregator together *)

(** X19.  Every entry of the composite ranking of a scan belongs to an
    instrument of the universe: a file that was read and passed the
    liquidity gate gives the entry both its ticker and its name. *)
Theorem composite_entries_come_from_universe w top_n min_volume :
  exists lbs overall_ranking,
    market_scan_all_strategies w top_n min_volume = Ok (lbs, overall_ranking) /\
    forall e, In e overall_ranking ->
      exists csv_path df,
        In csv_path (glob_csv w) /\
        read_csv w csv_path = Ok df /\
        mean_lt (series_mean (volume df)) min_volume = false /\
        e_ticker e = ticker_of csv_path /\
        e_name e = name_of csv_path.
Proof.
  destruct (market_scan_closed w top_n min_volume) as (overall & Hc & Hscan).
  eexists. exists overall. split; [exact Hscan|]. intros e He.
  destruct (ranking_member (sort_values w)
              (leaderboards (sort_values w) top_n (accumulated w min_volume))
              default_top_n) as (ranking & Hr & Hmem).
  rewrite Hc in Hr. injection Hr as <-.
  destruct (Hmem e He) as (t & s & Hs & ->).
  apply stats_of_fields in Hs. destruct Hs as (Hne & Hname & _).
  cbn [entry_of e_ticker e_name fst snd]. rewrite Hname.
  destruct (contributions t
              (leaderboards (sort_values w) top_n (accumulated w min_volume)))
    as [|[n row] cs] eqn:E; [congruence|].
  assert (Hin : In (n, row)
                  (contributions t
                     (leaderboards (sort_values w) top_n
                        (accumulated w min_volume))))
    by (rewrite E; now left).
  apply contributions_in in Hin. destruct Hin as (Ht & lb & Hlb & Hrow).
  apply leaderboards_in in Hlb. destruct Hlb as (rows & Hrows & ->).
  apply leaderboard_incl in Hrow.
  apply accumulated_in in Hrows. destruct Hrows as (strategy & _ & ->).
  apply in_flat_map in Hrow. destruct Hrow as (csv_path & Hfile & Hrow).
  apply file_rows_in in Hrow.
  destruct Hrow as (df & run_df & m & Hread & Hgate & _ & _ & _ & ->).
  exists csv_path, df. cbn [snd result_row ticker name] in *.
  repeat split; auto.
Qed.

Lemma selected_files_distinct_tickers (keep : string -> bool) files :
  NoDup (map ticker_of files) ->
  NoDup (map ticker_of (filter keep files)).
Proof.
  induction files as [|f files IH]; intros Hnd; cbn [filter map];
    [constructor|].
  cbn [map] in Hnd. inversion Hnd as [|? ? Hout Hrest]; subst.
  destruct (keep f); [|now apply IH].
  cbn [map]. constructor; [|now apply IH].
  intros Hin. apply Hout. apply in_map_iff in Hin.
  destruct Hin as (g & Hg & Hin). apply filter_In in Hin.
  apply in_map_iff. exists g. tauto.
Qed.

Lemma leaderboard_tickers_nodup pd top_n rows :
  NoDup (map ticker rows) -> NoDup (map ticker (leaderboard pd top_n rows)).
Proof.
  intros H. unfold leaderboard. destruct (negb (empty rows)); [|constructor].
  destruct (head_prefix top_n (sort_by pd sharpe_ratio rows)) as (k & ->).
  apply nodup_map_firstn.
  eapply Permutation_NoDup; [|exact H].
  apply Permutation_map, sort_by_perm.
Qed.

Lemma scan_leaderboards_nodup w top_n min_volume n lb :
  NoDup (map ticker_of (glob_csv w)) ->
  In (n, lb) (leaderboards (sort_values w) top_n (accumulated w min_volume)) ->
  NoDup (map ticker lb).
Proof.
  intros Hnd Hin. apply leaderboards_in in Hin.
  destruct Hin as (rows & Hrows & ->).
  apply leaderboard_tickers_nodup.
  apply accumulated_in in Hrows. destruct Hrows as (strategy & Hs & Hrows).
  destruct (@accumulated_rows_order w min_volume n strategy Hs)
    as (rows' & keep & Hget & Ht & _).
  rewrite (@accumulated_get w min_volume n strategy Hs) in Hget.
  injection Hget as <-. rewrite Hrows, Ht.
  now apply selected_files_distinct_tickers.
Qed.

(** X20.  When the files of the universe have pairwise distinct tickers, no
    ticker occurs twice in a leaderboard. *)
Theorem leaderboard_tickers_distinct w top_n min_volume :
  NoDup (map ticker_of (glob_csv w)) ->
  exists lbs overall_ranking,
    market_scan_all_strategies w top_n min_volume = Ok (lbs, overall_ranking) /\
    forall n lb, In (n, lb) lbs -> NoDup (map ticker lb).
Proof.
  intros Hnd.
  destruct (market_scan_closed w top_n min_volume) as (overall & _ & Hscan).
  eexists. exists overall. split; [exact Hscan|].
  intros n lb. now apply scan_leaderboards_nodup.
Qed.

Lemma demo_tickers_nodup : NoDup (map ticker_of (glob_csv demo_world)).
Proof.
  vm_compute.
  repeat (constructor;
          [cbn [In]; intros H;
           repeat (destruct H as [H|H]; [discriminate H|]); exact H|]).
  constructor.
Defined.

Lemma leaderboard_tickers_distinct_witness :
  NoDup (map ticker_of (glob_csv demo_world)) /\
  exists lbs overall_ranking,
    market_scan_all_strategies demo_world 30 500 = Ok (lbs, overall_ranking) /\
    forall n lb, In (n, lb) lbs -> NoDup (map ticker lb).
Proof.
  split; [exact demo_tickers_nodup|].
  exact (@leaderboard_tickers_distinct demo_world 30 500 demo_tickers_nodup).
Defined.

Lemma filter_ticker_length t (df : list StrategyResult) :
  NoDup (map ticker df) ->
  (List.length (filter (fun row => String.eqb (ticker row) t) df) <= 1)%nat.
Proof.
  induction df as [|r df IH]; intros H; cbn [filter map]; [cbn; lia|].
  cbn [map] in H. inversion H as [|? ? Hout Hnd]; subst.
  destruct (String.eqb_spec (ticker r) t) as [<-|Hne]; [|now apply IH].
  assert (E : filter (fun row => String.eqb (ticker row) (ticker r)) df = []).
  { clear -Hout. induction df as [|x df IH]; [reflexivity|].
    cbn [filter]. destruct (String.eqb_spec (ticker x) (ticker r)) as [Heq|_].
    - exfalso. apply Hout. cbn [map]. now left.
    - apply IH. intros Hin. apply Hout. cbn [map]. now right. }
  rewrite E. cbn. lia.
Qed.

Lemma contributions_length_le t results :
  (forall n df, In (n, df) results -> NoDup (map ticker df)) ->
  (List.length (contributions t results) <= List.length results)%nat.
Proof.
  intros H. unfold contributions, flat_rows. rewrite filter_flat_map.
  rewrite <- (Nat.mul_1_r (List.length results)).
  assert (Hgen : forall l : dict (list StrategyResult),
            (forall kv, In kv l -> NoDup (map ticker (snd kv))) ->
            (List.length
               (flat_map (fun kv : string * list StrategyResult =>
                            filter (for_ticker t) (map (pair (fst kv)) (snd kv)))
                  l) <= List.length l * 1)%nat).
  { induction l as [|[n df] l IH]; intros Hl; cbn [flat_map List.length]; [lia|].
    rewrite length_app.
    assert (Hone : (List.length (filter (for_ticker t) (map (pair n) df)) <= 1)%nat).
    { pose proof (@filter_ticker_length t df (Hl (n, df) (or_introl eq_refl)))
        as Hle.
      cbn [fst snd].
      assert (E : List.length (filter (for_ticker t) (map (pair n) df))
                  = List.length
                      (filter (fun row => String.eqb (ticker row) t) df)).
      { clear. induction df as [|r df IH]; [reflexivity|].
        cbn [map filter]. unfold for_ticker at 1. cbn [snd].
        destruct (String.eqb (ticker r) t); cbn [List.length]; now rewrite IH. }
      lia. }
    cbn [fst snd]. specialize (IH (fun kv Hkv => Hl kv (or_intror Hkv))). lia. }
  apply Hgen. intros [n df] Hin. cbn [snd]. now apply (H n df).
Qed.

(** X21.  When the files of the universe have pairwise distinct tickers, the
    strategy count of an entry of the composite ranking is at most the
    number of strategies of the battery. *)
Theorem strategy_count_bounded w top_n min_volume :
  NoDup (map ticker_of (glob_csv w)) ->
  exists lbs overall_ranking,
    market_scan_all_strategies w top_n min_volume = Ok (lbs, overall_ranking) /\
    forall e, In e overall_ranking ->
      (e_strategy_count e <= List.length (get_all_strategies w true))%nat.
Proof.
  intros Hnd.
  destruct (market_scan_closed w top_n min_volume) as (overall & Hc & Hscan).
  eexists. exists overall. split; [exact Hscan|]. intros e He.
  destruct (ranking_member (sort_values w)
              (leaderboards (sort_values w) top_n (accumulated w min_volume))
              default_top_n) as (ranking & Hr & Hmem).
  rewrite Hc in Hr. injection Hr as <-.
  destruct (Hmem e He) as (t & s & Hs & ->).
  apply stats_of_fields in Hs. destruct Hs as (_ & _ & Hstr & _).
  cbn [entry_of e_strategy_count snd]. rewrite Hstr, length_map.
  etransitivity.
  - apply contributions_length_le. intros n lb.
    now apply scan_leaderboards_nodup.
  - unfold leaderboards. rewrite length_map.
    rewrite <- (length_map fst (accumulated w min_volume)).
    fold (keys (accumulated w min_volume)).
    rewrite accumulated_keys, length_map. apply Nat.le_refl.
Qed.

Lemma strategy_count_bounded_witness :
  NoDup (map ticker_of (glob_csv demo_world)) /\
  exists lbs overall_ranking,
    market_scan_all_strategies demo_world 30 500 = Ok (lbs, overall_ranking) /\
    forall e, In e overall_ranking ->
      (e_strategy_count e <= List.length (get_all_strategies demo_world true))%nat.
Proof.
  split; [exact demo_tickers_nodup|].
  exact (@strategy_count_bounded demo_world 30 500 demo_tickers_nodup).
Defined.

(** X22.  With [top_n = 0] the scan returns an empty leaderboard for every
    strategy of the battery and, the ranking being computed from the
    leaderboards, the empty composite ranking. *)
Theorem zero_top_n_scan w min_volume :
  market_scan_all_strategies w 0 min_volume =
  Ok (map (fun s : string * Strategy => (fst s, [])) (get_all_strategies w true),
      []).
Proof.
  destruct (market_scan_closed w 0 min_volume) as (overall & Hc & Hscan).
  assert (Hlbs : leaderboards (sort_values w) 0 (accumulated w min_volume)
                 = map (fun s : string * Strategy => (fst s, []))
                     (get_all_strategies w true)).
  { unfold leaderboards.
    transitivity (map (fun k : string => (k, @nil StrategyResult))
                    (keys (accumulated w min_volume))).
    - unfold keys. rewrite map_map. apply map_ext. intros [k rows].
      cbn [fst snd]. unfold leaderboard. now destruct (negb (empty rows)).
    - rewrite accumulated_keys, map_map. reflexivity. }
  rewrite Hscan. rewrite Hlbs in Hc |- *.
  destruct (compute_overall_ranking_closed (sort_values w)
              (map (fun s : string * Strategy => (fst s, @nil StrategyResult))
                 (get_all_strategies w true)) default_top_n)
    as (d & _ & Hrep & _ & Hc').
  assert (Hd : d = []).
  { apply (@stock_stats_empty_iff _ d Hrep). intros n df Hin.
    apply in_map_iff in Hin. destruct Hin as (s & [= _ <-] & _). reflexivity. }
  rewrite Hc' in Hc. rewrite Hd in Hc. cbn in Hc. now injection Hc as <-.
Qed.

(** * Further properties of truncation and of skipped files *)

Lemma leaderboard_size pd top_n rows :
  List.length (leaderboard pd top_n rows) =
  if (0 <=? top_n)%Z
  then Nat.min (Z.to_nat top_n) (List.length rows)
  else (List.length rows - Z.to_nat (- top_n))%nat.
Proof.
  unfold leaderboard. destruct rows as [|r rows]; cbn [empty negb].
  - cbn [List.length]. destruct (0 <=? top_n)%Z; [now rewrite Nat.min_0_r | reflexivity].
  - unfold head.
    pose proof (Permutation_length (sort_by_perm pd sharpe_ratio (r :: rows)))
      as Hlen.
    destruct (0 <=? top_n)%Z; rewrite length_firstn, <- !Hlen; lia.
Qed.

(** X23.  The size of a leaderboard is fixed by [top_n] and the number of
    accepted results of its strategy: for a non-negative [top_n] it is the
    smaller of the two, so a leaderboard is full whenever enough results
    were accepted; for a negative [top_n] it is the number of results less
    [-top_n] (the last rows are dropped instead). *)
Theorem leaderboard_exact_size w top_n min_volume :
  exists lbs overall_ranking,
    market_scan_all_strategies w top_n min_volume = Ok (lbs, overall_ranking) /\
    forall n lb, In (n, lb) lbs ->
      exists rows,
        get (accumulated w min_volume) n = Some rows /\
        List.length lb =
        if (0 <=? top_n)%Z
        then Nat.min (Z.to_nat top_n) (List.length rows)
        else (List.length rows - Z.to_nat (- top_n))%nat.
Proof.
  destruct (market_scan_closed w top_n min_volume) as (overall & _ & Hscan).
  eexists. exists overall. split; [exact Hscan|].
  intros n lb Hin. apply leaderboards_in in Hin.
  destruct Hin as (rows & Hrows & ->). exists rows. split.
  - apply in_get_nodup; [|assumption].
    rewrite accumulated_keys. apply battery_nodup.
  - apply leaderboard_size.
Qed.

(** X24.  A smaller cap gives a prefix: for [0 <= a <= b] the leaderboard of
    a strategy under [top_n = a] is the first [a] rows of its leaderboard
    under [top_n = b]. *)
Theorem leaderboard_prefix_of_larger w a b min_volume n :
  (0 <= a)%Z -> (a <= b)%Z ->
  get (leaderboards (sort_values w) a (accumulated w min_volume)) n =
  option_map (firstn (Z.to_nat a))
    (get (leaderboards (sort_values w) b (accumulated w min_volume)) n) /\
  exists overall_a overall_b,
    market_scan_all_strategies w a min_volume
      = Ok (leaderboards (sort_values w) a (accumulated w min_volume), overall_a) /\
    market_scan_all_strategies w b min_volume
      = Ok (leaderboards (sort_values w) b (accumulated w min_volume), overall_b).
Proof.
  intros Ha Hab. split.
  - rewrite !leaderboards_get.
    destruct (get (accumulated w min_volume) n) as [rows|]; [|reflexivity].
    cbn [option_map]. f_equal. unfold leaderboard.
    destruct (negb (empty rows)); [|now rewrite firstn_nil].
    unfold head.
    destruct (Z.leb_spec 0 a) as [_|]; [|lia].
    destruct (Z.leb_spec 0 b) as [_|]; [|lia].
    rewrite firstn_firstn. f_equal. lia.
  - destruct (market_scan_closed w a min_volume) as (oa & _ & Hsa).
    destruct (market_scan_closed w b min_volume) as (ob & _ & Hsb).
    eauto.
Qed.

Lemma leaderboard_prefix_of_larger_witness :
  (0 <= 1)%Z /\ (1 <= 30)%Z /\
  get (leaderboards (sort_values demo_world) 1 (accumulated demo_world 500)) "RSI" =
  option_map (firstn (Z.to_nat 1))
    (get (leaderboards (sort_values demo_world) 30 (accumulated demo_world 500))
       "RSI").
Proof.
  split; [discriminate|]. split; [discriminate|].
  apply (@leaderboard_prefix_of_larger demo_world 1 30 500 "RSI");
    discriminate.
Defined.

Lemma scan_file_skipped w min_volume strategies csv_path st :
  (read_csv w csv_path = Raise \/
   exists df, read_csv w csv_path = Ok df /\
              mean_lt (series_mean (volume df)) min_volume = true) ->
  scan_file w min_volume strategies csv_path st = (Ok tt, st).
Proof.
  unfold scan_file, try_except, bind, lift.
  intros [->|(df & -> & ->)]; reflexivity.
Qed.

(** X25.  A file that cannot be read, or that fails the liquidity gate, is
    as good as absent: the loop over the universe ends in the same state
    (the same accumulated results and the same engine calls) as the loop
    over the universe without that file. *)
Theorem skipped_file_is_absent w min_volume strategies files csv_path :
  (read_csv w csv_path = Raise \/
   exists df, read_csv w csv_path = Ok df /\
              mean_lt (series_mean (volume df)) min_volume = true) ->
  scan_universe w min_volume strategies files =
  scan_universe w min_volume strategies
    (filter (fun f => negb (String.eqb f csv_path)) files).
Proof.
  intros Hskip. unfold scan_universe.
  generalize (mkState (empty_results strategies) []).
  induction files as [|f files IH]; intros st; [reflexivity|].
  cbn [filter]. destruct (String.eqb_spec f csv_path) as [->|Hne]; cbn [negb].
  - rewrite for_each_cons, (@scan_file_skipped w min_volume strategies csv_path st Hskip).
    apply IH.
  - rewrite !for_each_cons.
    destruct (scan_file w min_volume strategies f st) as [[[]|] st']; auto.
Qed.

Lemma skipped_file_is_absent_witness :
  (read_csv demo_world broken_csv = Raise \/
   exists df, read_csv demo_world broken_csv = Ok df /\
              mean_lt (series_mean (volume df)) 500 = true) /\
  scan_universe demo_world 500 (get_all_strategies demo_world true)
    (glob_csv demo_world) =
  scan_universe demo_world 500 (get_all_strategies demo_world true)
    (filter (fun f => negb (String.eqb f broken_csv)) (glob_csv demo_world)).
Proof.
  assert (H : read_csv demo_world broken_csv = Raise \/
              exists df, read_csv demo_world broken_csv = Ok df /\
                         mean_lt (series_mean (volume df)) 500 = true)
    by (left; reflexivity).
  split; [exact H|].
  exact (@skipped_file_is_absent demo_world 500 _ _ broken_csv H).
Defined.


(** * A file without bars

    One file that reads as a frame without rows, and an engine that reports
    three trades on it under RSI. *)



